(** * EmuladorGIT: a shallow embedding of [GitEmulator]

    The Python class [GitEmulator] (src/EmuladorGIT.py) keeps the whole
    repository in one JSON document, [.git/index.json], with four keys:
    [staged], [commits], [branches] and [current_branch].  Every command
    loads that document, possibly changes it, possibly writes it back and
    returns a line of text for the terminal.

    The embedding follows the code:
    - Python dictionaries are insertion-ordered association lists;
    - the persisted document is the state of a small state-and-exception
      monad, read by [load_index] and written by [save_index];
    - [hashlib.sha256] is SHA-256 itself (FIPS 180-4), computed on [Z];
    - the clock ([datetime.now()]), the configuration dictionary and the
      working tree are inputs of the commands that read them. *)

From Stdlib Require Import ZArith List String Ascii Bool Arith Lia.
From Stdlib Require Import Strings.Byte.
From Stdlib Require Import DecimalString.
Import ListNotations.

(** ** SHA-256 ([hashlib.sha256(...).hexdigest()]) *)

Module SHA256.
Local Open Scope Z_scope.

Definition wrap32 (x : Z) : Z := x mod 2 ^ 32.
Definition add32 (x y : Z) : Z := wrap32 (x + y).
Definition not32 (x : Z) : Z := Z.lxor x 0xffffffff.
Definition rotr (n x : Z) : Z :=
  Z.lor (Z.shiftr x n) (wrap32 (Z.shiftl x (32 - n))).
Definition shr (n x : Z) : Z := Z.shiftr x n.

Definition Ch (x y z : Z) : Z := Z.lxor (Z.land x y) (Z.land (not32 x) z).
Definition Maj (x y z : Z) : Z :=
  Z.lxor (Z.lxor (Z.land x y) (Z.land x z)) (Z.land y z).
Definition bsig0 (x : Z) : Z := Z.lxor (Z.lxor (rotr 2 x) (rotr 13 x)) (rotr 22 x).
Definition bsig1 (x : Z) : Z := Z.lxor (Z.lxor (rotr 6 x) (rotr 11 x)) (rotr 25 x).
Definition ssig0 (x : Z) : Z := Z.lxor (Z.lxor (rotr 7 x) (rotr 18 x)) (shr 3 x).
Definition ssig1 (x : Z) : Z := Z.lxor (Z.lxor (rotr 17 x) (rotr 19 x)) (shr 10 x).

(** The round constants and the initial state are defined as the
    standard derives them: the first 32 bits of the fractional parts of the
    cube roots of the first 64 primes, and of the square roots of the
    first 8. *)
Definition is_prime (n : nat) : bool :=
  forallb (fun d => negb (Nat.eqb (n mod d) 0)) (seq 2 (n - 2)).

Definition primes : list Z :=
  map Z.of_nat (firstn 64 (filter is_prime (seq 2 400))).

(** The largest [r] below [2 ^ bits] with [r ^ 3 <= n], one bit at a time. *)
Fixpoint cube_root (bits : nat) (n r : Z) : Z :=
  match bits with
  | O => r
  | S bits' =>
      let r' := r + 2 ^ Z.of_nat bits' in
      cube_root bits' n (if r' * r' * r' <=? n then r' else r)
  end.

Definition K : list Z :=
  Eval vm_compute in
    map (fun p => wrap32 (cube_root 36 (p * 2 ^ 96) 0)) primes.

(** The eight working words. *)
Definition state : Type := (Z * Z * Z * Z * Z * Z * Z * Z)%type.

Definition frac_sqrt (p : Z) : Z := wrap32 (Z.sqrt (p * 2 ^ 64)).

Definition H0 : state :=
  Eval vm_compute in
    (frac_sqrt 2, frac_sqrt 3, frac_sqrt 5, frac_sqrt 7,
     frac_sqrt 11, frac_sqrt 13, frac_sqrt 17, frac_sqrt 19).

(** [k] bytes of [x], most significant first. *)
Fixpoint be_bytes (k : nat) (x : Z) : list Z :=
  match k with
  | O => []
  | S k' => Z.shiftr x (8 * Z.of_nat k') mod 256 :: be_bytes k' x
  end.

(** Message, then 0x80, then zeros up to 56 mod 64, then the bit length. *)
Definition pad (msg : list Z) : list Z :=
  let n := Z.of_nat (List.length msg) in
  (msg ++ [0x80] ++ repeat 0 (Z.to_nat ((55 - n) mod 64)) ++ be_bytes 8 (8 * n))%list.

Fixpoint words (bs : list Z) : list Z :=
  match bs with
  | b0 :: b1 :: b2 :: b3 :: rest =>
      (b0 * 2 ^ 24 + b1 * 2 ^ 16 + b2 * 2 ^ 8 + b3) :: words rest
  | _ => []
  end.

Fixpoint blocks (fuel : nat) (ws : list Z) : list (list Z) :=
  match fuel, ws with
  | S fuel', _ :: _ => firstn 16 ws :: blocks fuel' (skipn 16 ws)
  | _, _ => []
  end.

(** Message schedule: [n] further words after the ones in [w]. *)
Fixpoint extend (n : nat) (w : list Z) : list Z :=
  match n with
  | O => w
  | S n' =>
      let t := List.length w in
      let back i := nth (t - i) w 0 in
      extend n' (w ++ [add32 (add32 (ssig1 (back 2%nat)) (back 7%nat))
                             (add32 (ssig0 (back 15%nat)) (back 16%nat))])%list
  end.

Definition round (s : state) (kw : Z * Z) : state :=
  let '(a, b, c, d, e, f, g, h) := s in
  let '(k, w) := kw in
  let t1 := add32 (add32 (add32 h (bsig1 e)) (add32 (Ch e f g) k)) w in
  let t2 := add32 (bsig0 a) (Maj a b c) in
  (add32 t1 t2, a, b, c, add32 d t1, e, f, g).

Definition compress (hs : state) (block : list Z) : state :=
  let '(a, b, c, d, e, f, g, h) := hs in
  let '(a', b', c', d', e', f', g', h') :=
    fold_left round (combine K (extend 48 block)) hs in
  (add32 a a', add32 b b', add32 c c', add32 d d',
   add32 e e', add32 f f', add32 g g', add32 h h').

Definition digest (msg : list byte) : state :=
  let ws := words (pad (map (fun b => Z.of_N (Byte.to_N b)) msg)) in
  fold_left compress (blocks (List.length ws) ws) H0.

Definition hexdigit (n : Z) : ascii :=
  nth (Z.to_nat n) (list_ascii_of_string "0123456789abcdef") "0"%char.

(** [k] lower-case hexadecimal digits of [x], most significant first. *)
Fixpoint hex (k : nat) (x : Z) : string :=
  match k with
  | O => EmptyString
  | S k' => String (hexdigit (Z.shiftr x (4 * Z.of_nat k') mod 16)) (hex k' x)
  end.

Definition hexdigest (msg : list byte) : string :=
  let '(a, b, c, d, e, f, g, h) := digest msg in
  (hex 8 a ++ hex 8 b ++ hex 8 c ++ hex 8 d ++
   hex 8 e ++ hex 8 f ++ hex 8 g ++ hex 8 h)%string.

End SHA256.

(** ** The Python values and library calls the emulator uses *)

Module Py.
Local Open Scope string_scope.

(** A line feed, a double quote and a backslash, for the literals of the
    source and the escapes of Python. *)
Definition nl : string := String (ascii_of_nat 10) EmptyString.
Definition dq : string := String (ascii_of_nat 34) EmptyString.
Definition backslash : ascii := ascii_of_nat 92.

(** *** [dict]: insertion-ordered, keyed by strings *)

Definition dict (V : Type) : Type := list (string * V).

(** [d.get(k)] *)
Fixpoint get {V : Type} (d : dict V) (k : string) : option V :=
  match d with
  | [] => None
  | (k', v) :: d' => if (k' =? k) then Some v else get d' k
  end.

(** [k in d] *)
Definition contains {V : Type} (k : string) (d : dict V) : bool :=
  match get d k with Some _ => true | None => false end.

(** [d.get(k, default)] *)
Definition get_default {V : Type} (d : dict V) (k : string) (default : V) : V :=
  match get d k with Some v => v | None => default end.

(** [d[k] = v]: an existing key keeps its place, a new key goes last. *)
Fixpoint setitem {V : Type} (d : dict V) (k : string) (v : V) : dict V :=
  match d with
  | [] => [(k, v)]
  | (k', v') :: d' =>
      if (k' =? k) then (k', v) :: d' else (k', v') :: setitem d' k v
  end.

(** Iterating over a dict yields its keys. *)
Definition keys {V : Type} (d : dict V) : list string := map fst d.

(** [l.append(x)] *)
Definition append {A : Type} (l : list A) (x : A) : list A := (l ++ [x])%list.

(** Truth value of a container: non-empty. *)
Definition truthy {A : Type} (l : list A) : bool :=
  match l with [] => false | _ :: _ => true end.

(** *** [str] *)

(** [sep.join(l)] *)
Definition join (sep : string) (l : list string) : string := String.concat sep l.

(** [needle in hay] on strings: [needle] occurs somewhere in [hay]. *)
Fixpoint substr (needle hay : string) : bool :=
  if String.prefix needle hay then true
  else match hay with
       | EmptyString => false
       | String _ hay' => substr needle hay'
       end.

(** [str(n)] for a non-negative integer. *)
Definition str_nat (n : nat) : string := NilEmpty.string_of_uint (Nat.to_uint n).

(** [s.encode()]: strings are kept as their UTF-8 bytes. *)
Definition encode (s : string) : list byte := list_byte_of_string s.

(** [s[:n]] *)
Definition slice_to (n : nat) (s : string) : string := String.substring 0 n s.

(** [repr(s)] of a [str].  The text goes between apostrophes, or between
    double quotes when it holds an apostrophe and no double quote; the
    quote in use and the backslash get a backslash before them; tab, line
    feed and carriage return are written [\t], [\n] and [\r], the other
    control characters of ASCII [\xNN].  Every other character is kept,
    as Python keeps the printable ones; outside ASCII Python escapes those
    that are not printable, which is not followed here. *)
Definition has_char (c : ascii) (s : string) : bool :=
  existsb (Ascii.eqb c) (list_ascii_of_string s).

Definition repr_char (quote c : ascii) : string :=
  let n := nat_of_ascii c in
  if Ascii.eqb c quote || Ascii.eqb c backslash
  then String backslash (String c EmptyString)
  else if Nat.eqb n 9 then "\t"
  else if Nat.eqb n 10 then "\n"
  else if Nat.eqb n 13 then "\r"
  else if Nat.ltb n 32 || Nat.eqb n 127 then "\x" ++ SHA256.hex 2 (Z.of_nat n)
  else String c EmptyString.

Fixpoint repr_from (quote : ascii) (s : string) : string :=
  match s with
  | EmptyString => String quote EmptyString
  | String c s' => repr_char quote c ++ repr_from quote s'
  end.

Definition repr (s : string) : string :=
  let quote :=
    if has_char "'" s && negb (has_char (ascii_of_nat 34) s)
    then ascii_of_nat 34 else "'"%char in
  String quote (repr_from quote s).

(** The texts [repr] only puts between apostrophes: printable characters
    of ASCII, with no apostrophe and no backslash. *)
Definition unquoted (s : string) : bool :=
  forallb
    (fun c => Nat.leb 32 (nat_of_ascii c) && Nat.leb (nat_of_ascii c) 126 &&
              negb (Ascii.eqb c "'") && negb (Ascii.eqb c backslash))
    (list_ascii_of_string s).

(** *** [datetime] *)

Record datetime : Type := mk_datetime {
  year : nat; month : nat; day : nat;
  hour : nat; minute : nat; second : nat; microsecond : nat }.

Definition digit (n : nat) : ascii := ascii_of_nat (48 + n mod 10).

(** The [w] last decimal digits of [n]: what [%0wd] prints when [n < 10^w],
    which holds for every field of a [datetime]. *)
Fixpoint zfill (w n : nat) : string :=
  match w with
  | O => EmptyString
  | S w' => zfill w' (n / 10) ++ String (digit n) EmptyString
  end.

Definition isoformat_sep (sep : string) (t : datetime) : string :=
  zfill 4 (year t) ++ "-" ++ zfill 2 (month t) ++ "-" ++ zfill 2 (day t) ++ sep ++
  zfill 2 (hour t) ++ ":" ++ zfill 2 (minute t) ++ ":" ++ zfill 2 (second t) ++
  (if Nat.eqb (microsecond t) 0 then "" else "." ++ zfill 6 (microsecond t)).

(** [str(t)] *)
Definition str_datetime (t : datetime) : string := isoformat_sep " " t.
(** [t.isoformat()] *)
Definition isoformat (t : datetime) : string := isoformat_sep "T" t.

(** *** [os.path] on POSIX paths *)

Fixpoint ends_with_slash (s : string) : bool :=
  match s with
  | EmptyString => false
  | String c EmptyString => Ascii.eqb c "/"
  | String _ s' => ends_with_slash s'
  end.

(** [os.path.join(a, b)] *)
Definition path_join (a b : string) : string :=
  if String.prefix "/" b then b
  else if (a =? "") || ends_with_slash a then a ++ b
  else a ++ "/" ++ b.

Fixpoint strip_prefix (p s : string) : option string :=
  match p, s with
  | EmptyString, _ => Some s
  | String a p', String b s' => if Ascii.eqb a b then strip_prefix p' s' else None
  | String _ _, EmptyString => None
  end.

(** [os.path.relpath(path, start)] for a [path] below the directory
    [start], the only use the emulator makes of it ([os.walk(start)] yields
    nothing else). *)
Definition relpath (path start : string) : string :=
  match strip_prefix (start ++ "/") path with
  | Some rel => rel
  | None => path
  end.

End Py.

(** ** The repository document and the working tree *)

Module GitEmulator.
Import Py.
Local Open Scope string_scope.

(** One element of [index['commits']], as [commit] builds it. *)
Record Commit : Type := mk_commit {
  hash : string;
  message : string;
  author : string;
  date : string;
  files : dict string;
  branch_of : string   (* the key "branch" *)
}.

(** The content of [.git/index.json]. *)
Record Index : Type := mk_index {
  staged : dict string;
  commits : list Commit;
  branches : dict (option string);
  current_branch : string
}.

(** The JSON object of a commit: its keys, in the order of the literal. *)
Inductive value : Type :=
| VStr (s : string)
| VDict (d : dict string).

Definition commit_object (c : Commit) : dict value :=
  [ ("hash", VStr (hash c)); ("message", VStr (message c));
    ("author", VStr (author c)); ("date", VStr (date c));
    ("files", VDict (files c)); ("branch", VStr (branch_of c)) ].

(** What [init] writes. *)
Definition initial_index : Index :=
  {| staged := []; commits := []; branches := [("main", None)];
     current_branch := "main" |}.

(** What is found at a path of the file system. *)
Inductive node : Type :=
| File (content : list byte)
| Dir.

(** What a command reads of the file system besides the document it
    loads: the root of the repository ([os.path.dirname(git_dir)]), what
    [os.walk(repo_root)] yields (each directory with the names of its
    files) and what lies at a full path, all taken when the command runs.
    The commands write one file only, [index.json]: between two commands
    a tree changes there, and wherever the user edits. *)
Record WorkTree : Type := mk_worktree {
  repo_root : string;
  walk : list (string * list string);
  lookup : string -> option node
}.

(** [os.path.exists(p)] *)
Definition exists_ (wt : WorkTree) (p : string) : bool :=
  match lookup wt p with Some _ => true | None => false end.

(** ** State and exceptions

    The state is the persisted document: [None] when no [.git] directory is
    found from the working directory.  A computation returns a value or the
    text of the exception it raised ([str(e)]); the state it leaves is the
    one reached when it stopped, since nothing is rolled back. *)

Definition Store : Type := option Index.

Definition M (A : Type) : Type := Store -> (string + A) * Store.

Definition ret {A : Type} (a : A) : M A := fun s => (inr a, s).

Definition bind {A B : Type} (m : M A) (f : A -> M B) : M B :=
  fun s => match m s with
           | (inl e, s') => (inl e, s')
           | (inr a, s') => f a s'
           end.

Definition raise {A : Type} (e : string) : M A := fun s => (inl e, s).

Notation "x <- m ;; k" := (bind m (fun x => k))
  (at level 61, m at next level, right associativity).
Notation "m ;;; k" := (bind m (fun _ => k))
  (at level 61, right associativity).

(** [try: ... except Exception as e: return str(e)] *)
Definition try_except (m : M string) : Store -> string * Store :=
  fun s => match m s with
           | (inl e, s') => (e, s')
           | (inr out, s') => (out, s')
           end.

Definition load_index : M Index :=
  fun s => match s with
           | None => (inl "fatal: not a git repository", s)
           | Some index => (inr index, s)
           end.

(** [save_index] is only ever called after [load_index] has found the
    directory; without one, [os.path.join(None, ...)] raises. *)
Definition save_index (index : Index) : M unit :=
  fun s => match s with
           | None => (inl "expected str, bytes or os.PathLike object, not NoneType", s)
           | Some _ => (inr tt, Some index)
           end.

(** [with open(p, 'rb') as f: content = f.read()].  The text of an
    [OSError] ends with [repr] of the file name. *)
Definition read_bytes (wt : WorkTree) (p : string) : M (list byte) :=
  match lookup wt p with
  | Some (File content) => ret content
  | Some Dir => raise ("[Errno 21] Is a directory: " ++ repr p)
  | None => raise ("[Errno 2] No such file or directory: " ++ repr p)
  end.

(** A [for] loop whose body may raise. *)
Fixpoint for_each {A S : Type} (l : list A) (body : S -> A -> M S) (acc : S) : M S :=
  match l with
  | [] => ret acc
  | x :: l' => acc' <- body acc x ;; for_each l' body acc'
  end.

(** [index['commits'][-1]] *)
Definition last_commit (index : Index) : option Commit :=
  List.last (map Some (commits index)) None.

(** ** The commands *)

Definition get_untracked_files (wt : WorkTree) (index : Index) : list string :=
  fold_left
    (fun untracked '(root, names) =>
       if substr ".git" root then untracked
       else
         fold_left
           (fun untracked file =>
              let full_path := path_join root file in
              let rel_path := relpath full_path (repo_root wt) in
              if negb (contains rel_path (staged index)) then
                let committed :=
                  if truthy (commits index) then
                    match last_commit index with
                    | Some c => contains rel_path (files c)
                    | None => false
                    end
                  else false in
                if negb committed then append untracked rel_path else untracked
              else untracked)
           names untracked)
    (walk wt) [].

Definition status_body (wt : WorkTree) : M string :=
  index <- load_index ;;
  let output := [] in
  let output := append output ("On branch " ++ current_branch index) in
  let output :=
    if negb (truthy (commits index))
    then append output (nl ++ "No commits yet" ++ nl) else output in
  let output :=
    if truthy (staged index) then
      fold_left (fun output file => append output ("        modified:   " ++ file))
        (keys (staged index))
        (append (append output (nl ++ "Changes to be committed:"))
           ("  (use " ++ dq ++ "git reset HEAD <file>..." ++ dq ++ " to unstage)" ++ nl))
    else output in
  let untracked := get_untracked_files wt index in
  let output :=
    if truthy untracked then
      fold_left (fun output file => append output ("        " ++ file))
        untracked
        (append (append output (nl ++ "Untracked files:"))
           ("  (use " ++ dq ++ "git add <file>..." ++ dq ++
            " to include in what will be committed)" ++ nl))
    else output in
  let output :=
    if negb (truthy (staged index)) && negb (truthy untracked)
    then append output (nl ++ "nothing to commit, working tree clean") else output in
  ret (join nl output).

Definition status (wt : WorkTree) : Store -> string * Store :=
  try_except (status_body wt).

Definition with_staged (index : Index) (d : dict string) : Index :=
  {| staged := d; commits := commits index; branches := branches index;
     current_branch := current_branch index |}.

(** The body of the loop of [add(".")], for one untracked file. *)
Definition stage_untracked (wt : WorkTree) (index : Index) (file : string) : M Index :=
  let file_path := path_join (repo_root wt) file in
  if exists_ wt file_path then
    content <- read_bytes wt file_path ;;
    ret (with_staged index
           (setitem (staged index) file (SHA256.hexdigest content)))
  else ret index.

Definition add_body (wt : WorkTree) (path : string) : M string :=
  index <- load_index ;;
  if (path =? ".") then
    let untracked := get_untracked_files wt index in
    index <- for_each untracked (stage_untracked wt) index ;;
    save_index index ;;;
    ret ("Added " ++ str_nat (List.length untracked) ++ " files")
  else
    let full_path := path_join (repo_root wt) path in
    if negb (exists_ wt full_path) then
      ret ("fatal: pathspec '" ++ path ++ "' did not match any files")
    else
      content <- read_bytes wt full_path ;;
      let index := with_staged index
                     (setitem (staged index) path (SHA256.hexdigest content)) in
      save_index index ;;;
      ret ("Added '" ++ path ++ "' to stage").

Definition add (wt : WorkTree) (path : string) : Store -> string * Store :=
  try_except (add_body wt path).

(** [commit] reads the clock twice: [now1] for the hash, [now2] for the
    date.  [config] is [self.config]. *)
Definition new_commit (config : dict string) (now1 now2 : datetime)
    (index : Index) (message : string) : Commit :=
  {| hash := slice_to 8 (SHA256.hexdigest (encode (message ++ str_datetime now1)));
     message := message;
     author := get_default config "user.name" "User" ++ " <" ++
               get_default config "user.email" "user@example.com" ++ ">";
     date := isoformat now2;
     files := staged index;
     branch_of := current_branch index |}.

Definition commit_body (config : dict string) (now1 now2 : datetime)
    (message : string) : M string :=
  index <- load_index ;;
  if negb (truthy (staged index)) then
    ret "nothing to commit, working tree clean"
  else
    let commit := new_commit config now1 now2 index message in
    let index :=
      {| staged := [];
         commits := append (commits index) commit;
         branches := setitem (branches index) (current_branch index) (Some (hash commit));
         current_branch := current_branch index |} in
    save_index index ;;;
    ret ("[" ++ current_branch index ++ " " ++ hash commit ++ "] " ++ message ++
         nl ++ " " ++ str_nat (List.length (files commit)) ++ " files changed").

Definition commit (config : dict string) (now1 now2 : datetime)
    (message : string) : Store -> string * Store :=
  try_except (commit_body config now1 now2 message).

(** The lines [log] joins: four per commit, last commit first. *)
Definition log_lines (index : Index) : list string :=
  fold_left
    (fun output commit =>
       let output := append output ("commit " ++ hash commit) in
       let output := append output ("Author: " ++ author commit) in
       let output := append output ("Date:   " ++ date commit ++ nl) in
       append output ("    " ++ message commit ++ nl))
    (rev (commits index)) [].

Definition log_body : M string :=
  index <- load_index ;;
  if negb (truthy (commits index)) then ret "No commits yet"
  else ret (join nl (log_lines index)).

Definition log : Store -> string * Store := try_except log_body.

(** [index['branches'][k]]: a missing key raises [KeyError(k)], whose text
    is [repr(k)]. *)
Definition getitem_branch (index : Index) (k : string) : M (option string) :=
  match get (branches index) k with
  | Some target => ret target
  | None => raise (repr k)
  end.

Definition branch_body (name : option string) : M string :=
  index <- load_index ;;
  match name with
  | None =>
      ret (join nl
             (fold_left
                (fun output branch =>
                   let prefix := if (branch =? current_branch index) then "* " else "  " in
                   append output (prefix ++ branch))
                (keys (branches index)) []))
  | Some name =>
      if contains name (branches index) then
        ret ("fatal: A branch named '" ++ name ++ "' already exists.")
      else
        current_commit <- getitem_branch index (current_branch index) ;;
        let index :=
          {| staged := staged index; commits := commits index;
             branches := setitem (branches index) name current_commit;
             current_branch := current_branch index |} in
        save_index index ;;;
        ret ("Branch '" ++ name ++ "' created")
  end.

Definition branch (name : option string) : Store -> string * Store :=
  try_except (branch_body name).

Definition checkout_body (branch : string) : M string :=
  index <- load_index ;;
  if negb (contains branch (branches index)) then
    ret ("error: pathspec '" ++ branch ++ "' did not match any file(s) known to git")
  else if truthy (staged index) then
    ret ("error: Your local changes would be overwritten by checkout." ++ nl ++
         "Please commit your changes first.")
  else
    let index :=
      {| staged := staged index; commits := commits index;
         branches := branches index; current_branch := branch |} in
    save_index index ;;;
    ret ("Switched to branch '" ++ branch ++ "'").

Definition checkout (branch : string) : Store -> string * Store :=
  try_except (checkout_body branch).

End GitEmulator.

(** ** Reading a history off the document *)

Module History.
Import Py GitEmulator.
Local Open Scope string_scope.

(** The target of the current branch, [None] while it has no commit. *)
Definition head_of (index : Index) : option string :=
  match get (branches index) (current_branch index) with
  | Some target => target
  | None => None
  end.

(** The parent a commit records: what its object holds under ["parent"]. *)
Definition recorded_parent (c : Commit) : option string :=
  match get (commit_object c) "parent" with
  | Some (VStr h) => Some h
  | _ => None
  end.

(** The hash of the commit stored just before the one with hash [h]. *)
Fixpoint preceding (cs : list Commit) (h : string) : option string :=
  match cs with
  | [] => None
  | c1 :: rest =>
      if (hash c1 =? h) then None
      else match rest with
           | c2 :: _ => if (hash c2 =? h) then Some (hash c1) else preceding rest h
           | [] => None
           end
  end.

(** Whether the last stored commit lists [rel_path] among its files: the
    flag [committed] of [get_untracked_files]. *)
Definition in_last_commit (index : Index) (rel_path : string) : bool :=
  if truthy (commits index) then
    match last_commit index with
    | Some c => contains rel_path (files c)
    | None => false
    end
  else false.

(** The test [get_untracked_files] applies to a relative path. *)
Definition is_untracked (index : Index) (rel_path : string) : bool :=
  negb (contains rel_path (staged index)) && negb (in_last_commit index rel_path).

(** The relative paths of the files the walk visits: every file of every
    directory whose path does not contain [.git]. *)
Definition walked_paths (wt : WorkTree) : list string :=
  flat_map
    (fun '(root, names) =>
       if substr ".git" root then []
       else map (fun file => relpath (path_join root file) (repo_root wt)) names)
    (walk wt).

(** What the loop of [add(".")] over the files [l] may have done when it
    ends without an exception: [index'] differs from [index] in staged
    entries only, and only at files of [l]; every file of [l] found on disk
    is staged, and nothing staged before is lost. *)
Definition staged_by (wt : WorkTree) (l : list string) (index index' : Index) : Prop :=
  commits index' = commits index /\
  branches index' = branches index /\
  current_branch index' = current_branch index /\
  (forall p, ~ In p l -> get (staged index') p = get (staged index) p) /\
  (forall p, contains p (staged index) = true -> contains p (staged index') = true) /\
  (forall p, In p l -> exists_ wt (path_join (repo_root wt) p) = true ->
     contains p (staged index') = true) /\
  ((forall p, In p l -> exists_ wt (path_join (repo_root wt) p) = false) ->
   index' = index).

(** The four lines [log] prints for one commit. *)
Definition commit_lines (c : Commit) : list string :=
  [ "commit " ++ hash c; "Author: " ++ author c;
    "Date:   " ++ date c ++ nl; "    " ++ message c ++ nl ].

Fixpoint find_commit (h : string) (cs : list Commit) : option Commit :=
  match cs with
  | [] => None
  | c :: cs' => if (hash c =? h) then Some c else find_commit h cs'
  end.

(** The history as the specification words it, for a given notion of
    parent: start at the head of the current branch and follow [parent]
    until none remains. *)
Fixpoint parent_walk (parent : Commit -> option string) (fuel : nat)
    (cs : list Commit) (h : option string) : list Commit :=
  match fuel, h with
  | S fuel', Some h =>
      match find_commit h cs with
      | Some c => c :: parent_walk parent fuel' cs (parent c)
      | None => []
      end
  | _, _ => []
  end.

Definition spec_log (parent : list Commit -> Commit -> option string)
    (index : Index) : list Commit :=
  parent_walk (parent (commits index)) (List.length (commits index))
    (commits index) (head_of index).

End History.

(** ** Sessions

    The commands of a terminal session and the documents they can lead to,
    starting from the one [init] writes. *)

Module Session.
Import Py GitEmulator.

Inductive command : Type :=
| RunStatus (wt : WorkTree)
| RunAdd (wt : WorkTree) (path : string)
| RunCommit (config : dict string) (now1 now2 : datetime) (message : string)
| RunLog
| RunBranch (name : option string)
| RunCheckout (branch : string).

Definition run (c : command) : Store -> string * Store :=
  match c with
  | RunStatus wt => status wt
  | RunAdd wt path => add wt path
  | RunCommit config now1 now2 message => commit config now1 now2 message
  | RunLog => log
  | RunBranch name => branch name
  | RunCheckout b => checkout b
  end.

Inductive reachable : Index -> Prop :=
| reachable_init : reachable initial_index
| reachable_step (c : command) (index index' : Index) (out : string) :
    reachable index ->
    run c (Some index) = (out, Some index') ->
    reachable index'.

(** The current branch is one of the branches, so that
    [index['branches'][index['current_branch']]] finds its key. *)
Definition current_branch_exists (index : Index) : Prop :=
  contains (current_branch index) (branches index) = true.

End Session.

(** ** A concrete session

    A working tree with three files and the documents reached by staging
    and committing them on two branches. *)

Module Scenario.
Import Py GitEmulator.
Local Open Scope string_scope.

Definition tree (a_content : string) : WorkTree :=
  {| repo_root := "/home/u/proj";
     walk := [ ("/home/u/proj", ["a.txt"; "b.txt"]);
               ("/home/u/proj/.git", ["HEAD"; "config"; "index.json"]);
               ("/home/u/proj/.git/refs/heads", []);
               ("/home/u/proj/sub", ["c.txt"]) ];
     lookup := fun p =>
       if p =? "/home/u/proj/a.txt" then Some (File (encode a_content))
       else if p =? "/home/u/proj/b.txt" then Some (File (encode "y"))
       else if p =? "/home/u/proj/sub/c.txt" then Some (File (encode "z"))
       else if p =? "/home/u/proj/sub" then Some Dir
       else if p =? "/home/u/proj/." then Some Dir
       else None |}.

Definition wt : WorkTree := tree "x".
(** The same tree after [a.txt] has been edited. *)
Definition wt_edited : WorkTree := tree "x, edited".

Definition config : dict string :=
  [("user.name", "User"); ("user.email", "user@example.com")].
Definition config_ana : dict string :=
  [("user.name", "Ana"); ("user.email", "ana@example.com")].

(** 3 November 2026, 17:29, at second [s] and microsecond [us]. *)
Definition clock (s us : nat) : datetime := mk_datetime 2026 11 3 17 29 s us.

Definition s0 : Store := Some initial_index.
Definition s1 : Store := snd (add wt "a.txt" s0).
Definition s2 : Store := snd (commit config (clock 1 7) (clock 1 9) "first" s1).
Definition s3 : Store := snd (branch (Some "feature") s2).
Definition s4 : Store := snd (checkout "feature" s3).
Definition s5 : Store := snd (add wt "b.txt" s4).
Definition s6 : Store := snd (commit config (clock 2 7) (clock 2 9) "second" s5).
Definition s7 : Store := snd (checkout "main" s6).
Definition s8 : Store := snd (add wt "sub/c.txt" s7).
Definition s9 : Store := snd (commit config (clock 3 7) (clock 3 9) "third" s8).

(** The document inside a store ([initial_index] stands for a missing one,
    which no store above is). *)
Definition document (s : Store) : Index :=
  match s with Some index => index | None => initial_index end.

End Scenario.

(** ** What a command can do to the document *)

Module Effects.
Import Py GitEmulator.
Local Open Scope string_scope.

(** The five ways the document written by a command relates to the one it
    loaded: nothing written; staged entries added or replaced ([add]); a
    commit stored ([commit]); a branch added ([branch]); the current branch
    changed ([checkout]). *)
Inductive effect (index : Index) : Index -> Prop :=
| effect_none : effect index index
| effect_stage (index' : Index) :
    commits index' = commits index ->
    branches index' = branches index ->
    current_branch index' = current_branch index ->
    (forall p, contains p (staged index) = true -> contains p (staged index') = true) ->
    effect index index'
| effect_commit (config : dict string) (now1 now2 : datetime) (message : string) :
    staged index <> [] ->
    effect index
      {| staged := [];
         commits := append (commits index) (new_commit config now1 now2 index message);
         branches := setitem (branches index) (current_branch index)
                       (Some (hash (new_commit config now1 now2 index message)));
         current_branch := current_branch index |}
| effect_branch (name : string) (target : option string) :
    contains name (branches index) = false ->
    get (branches index) (current_branch index) = Some target ->
    effect index
      {| staged := staged index; commits := commits index;
         branches := setitem (branches index) name target;
         current_branch := current_branch index |}
| effect_checkout (b : string) :
    contains b (branches index) = true ->
    staged index = [] ->
    effect index
      {| staged := staged index; commits := commits index;
         branches := branches index; current_branch := b |}.

(** Lower-case hexadecimal digits only. *)
Definition is_hex_digit (c : ascii) : bool :=
  let n := nat_of_ascii c in
  (Nat.leb 48 n && Nat.leb n 57) || (Nat.leb 97 n && Nat.leb n 102).

Fixpoint all_hex (s : string) : bool :=
  match s with
  | EmptyString => true
  | String c s' => is_hex_digit c && all_hex s'
  end.

(** Every branch that has a target points at a stored commit. *)
Definition refs_valid (index : Index) : Prop :=
  forall name h, get (branches index) name = Some (Some h) ->
    exists c, In c (commits index) /\ hash c = h.

(** Every stored commit lists at least one file, is named by 8 hexadecimal
    digits and was made on a branch that exists. *)
Definition commits_ok (index : Index) : Prop :=
  forall c, In c (commits index) ->
    files c <> [] /\
    String.length (hash c) = 8 /\
    all_hex (hash c) = true /\
    contains (branch_of c) (branches index) = true.

End Effects.

(** ** The lines of the reports *)

Module Views.
Import Py GitEmulator.
Local Open Scope string_scope.



(** The list [output] that [status] joins. *)
Definition status_lines (wt : WorkTree) (index : Index) : list string :=
  let output := [] in
  let output := append output ("On branch " ++ current_branch index) in
  let output :=
    if negb (truthy (commits index))
    then append output (nl ++ "No commits yet" ++ nl) else output in
  let output :=
    if truthy (staged index) then
      fold_left (fun output file => append output ("        modified:   " ++ file))
        (keys (staged index))
        (append (append output (nl ++ "Changes to be committed:"))
           ("  (use " ++ dq ++ "git reset HEAD <file>..." ++ dq ++ " to unstage)" ++ nl))
    else output in
  let untracked := get_untracked_files wt index in
  let output :=
    if truthy untracked then
      fold_left (fun output file => append output ("        " ++ file))
        untracked
        (append (append output (nl ++ "Untracked files:"))
           ("  (use " ++ dq ++ "git add <file>..." ++ dq ++
            " to include in what will be committed)" ++ nl))
    else output in
  if negb (truthy (staged index)) && negb (truthy untracked)
  then append output (nl ++ "nothing to commit, working tree clean") else output.

(** The last line of a text: what follows its last line feed.  [tail]
    holds the characters read since the last one. *)
Definition line_feed : ascii := ascii_of_nat 10.

Fixpoint last_line_from (tail : string) (s : string) : string :=
  match s with
  | EmptyString => tail
  | String c s' =>
      if Ascii.eqb c line_feed then last_line_from "" s'
      else last_line_from (tail ++ String c EmptyString) s'
  end.

Definition last_line (s : string) : string := last_line_from "" s.

End Views.

(** ** The terminal window ([GitTerminal]) *)

Module Terminal.
Import Py GitEmulator.
Local Open Scope string_scope.

(** *** More of [str] and [list]

    Strings hold bytes; [isspace] is Python's for the ASCII characters, so
    [strip] and [split] below are [str.strip()] and [str.split()] on
    command lines of ASCII characters. *)

Definition ascii_only (s : string) : bool :=
  forallb (fun c => Nat.ltb (nat_of_ascii c) 128) (list_ascii_of_string s).

Definition isspace (c : ascii) : bool :=
  let n := nat_of_ascii c in
  (Nat.leb 9 n && Nat.leb n 13) || (Nat.leb 28 n && Nat.leb n 32).

Fixpoint lstrip (s : string) : string :=
  match s with
  | EmptyString => EmptyString
  | String c s' => if isspace c then lstrip s' else s
  end.

(** [s] without its trailing white space; [None] when [s] is all white
    space. *)
Fixpoint rstrip_aux (s : string) : option string :=
  match s with
  | EmptyString => None
  | String c s' =>
      match rstrip_aux s' with
      | Some r => Some (String c r)
      | None => if isspace c then None else Some (String c EmptyString)
      end
  end.

Definition rstrip (s : string) : string :=
  match rstrip_aux s with Some r => r | None => EmptyString end.

(** [s.strip()] *)
Definition strip (s : string) : string := rstrip (lstrip s).

(** [s.split()]: the maximal runs of characters that are not white space.
    [word] holds the run being read. *)
Fixpoint split_from (word : string) (s : string) : list string :=
  match s with
  | EmptyString => if (word =? "") then [] else [word]
  | String c s' =>
      if isspace c then
        if (word =? "") then split_from "" s' else word :: split_from "" s'
      else split_from (word ++ String c EmptyString) s'
  end.

Definition split (s : string) : list string := split_from "" s.

(** [l[i]] for an integer [i], negative indices counting from the end;
    [None] when Python raises [IndexError]. *)
Definition list_getitem {A : Type} (l : list A) (i : Z) : option A :=
  let n := Z.of_nat (List.length l) in
  if ((0 <=? i) && (i <? n))%Z then nth_error l (Z.to_nat i)
  else if ((- n <=? i) && (i <? 0))%Z then nth_error l (Z.to_nat (n + i))
  else None.

(** [l.index(x)] *)
Fixpoint list_index (x : string) (l : list string) : option nat :=
  match l with
  | [] => None
  | y :: l' => if (y =? x) then Some 0
               else match list_index x l' with Some i => Some (S i) | None => None end
  end.

(** [os.path.basename(p)]: what follows the last slash.  [tail] holds the
    characters read since the last one. *)
Fixpoint basename_from (tail : string) (p : string) : string :=
  match p with
  | EmptyString => tail
  | String c p' =>
      if Ascii.eqb c "/" then basename_from "" p'
      else basename_from (tail ++ String c EmptyString) p'
  end.

Definition basename (p : string) : string := basename_from "" p.

(** *** Command history *)

(** The fields of the window the handlers read and write: the working
    directory, the history with its cursor, the entry field and the texts
    written to the output area, oldest first. *)
Record Window : Type := mk_window {
  cwd : string;
  command_history : list string;
  history_index : Z;
  input_field : string;
  output_area : list string
}.

Definition with_history (w : Window) (i : Z) (entry : string) : Window :=
  {| cwd := cwd w; command_history := command_history w; history_index := i;
     input_field := entry; output_area := output_area w |}.

(** The handlers of the Up and Down keys.  [None]: the lookup in the
    history raised [IndexError]. *)
Definition history_up (w : Window) : option Window :=
  if truthy (command_history w) && (0 <? history_index w)%Z then
    let i := (history_index w - 1)%Z in
    match list_getitem (command_history w) i with
    | Some c => Some (with_history w i c)
    | None => None
    end
  else Some w.

Definition history_down (w : Window) : option Window :=
  let n := Z.of_nat (List.length (command_history w)) in
  if truthy (command_history w) && (history_index w <? n - 1)%Z then
    let i := (history_index w + 1)%Z in
    match list_getitem (command_history w) i with
    | Some c => Some (with_history w i c)
    | None => None
    end
  else if (history_index w =? n - 1)%Z then Some (with_history w n "")
  else Some w.

(** *** [execute_command]

    What the handler of the Return key does to the window, and the helper
    it hands the command to.  [change_directory], [list_directory],
    [show_help] and [root.quit] are outside the model: the handler's part
    ends with the call. *)
Inductive handler : Type :=
| Blank
| Clear
| Quit
| ShowHelp
| ChangeDirectory (path : string)
| Pwd
| ListDirectory
| ProcessGitCommand (command : string).

Definition write_output (w : Window) (text : string) : Window :=
  {| cwd := cwd w; command_history := command_history w;
     history_index := history_index w; input_field := input_field w;
     output_area := append (output_area w) text |}.

Definition execute_command (w : Window) : Window * handler :=
  let command := strip (input_field w) in
  if (command =? "") then (w, Blank)
  else
    let history := append (command_history w) command in
    let w :=
      {| cwd := cwd w; command_history := history;
         history_index := Z.of_nat (List.length history);
         input_field := input_field w; output_area := output_area w |} in
    let w := write_output w ("git@" ++ basename (cwd w) ++ "$ " ++ command) in
    let w := with_history w (history_index w) "" in
    if (command =? "clear") then
      ({| cwd := cwd w; command_history := command_history w;
          history_index := history_index w; input_field := input_field w;
          output_area := [] |}, Clear)
    else if (command =? "exit") || (command =? "quit") then (w, Quit)
    else if (command =? "help") then (w, ShowHelp)
    else if String.prefix "cd " command then
      (w, ChangeDirectory (strip (String.substring 3 (String.length command - 3) command)))
    else if (command =? "pwd") then (write_output w (cwd w), Pwd)
    else if (command =? "ls") || (command =? "dir") then (w, ListDirectory)
    else (w, ProcessGitCommand command).

(** The window as [__init__] leaves it: an empty history, the cursor at 0
    and the welcome texts. *)
Definition initial_window (cwd : string) : Window :=
  let rule := string_of_list_ascii (repeat "="%char 60) in
  {| cwd := cwd; command_history := []; history_index := 0;
     input_field := "";
     output_area :=
       [ rule;
         "  EMULATED/GIT/$$ - Terminal Git Emulador v2.0";
         "  Git Emulado Internamente - Não requer Git instalado!";
         rule;
         "Diretório atual: " ++ cwd;
         "Digite 'help' para ver comandos disponíveis" ++ nl ] |}.

(** The cursor is on an entry of the history or just after the last. *)
Definition in_bounds (w : Window) : Prop :=
  (0 <= history_index w <= Z.of_nat (List.length (command_history w)))%Z.

(** *** [process_git_command]

    The method to call with its arguments, or the text written without
    calling any. *)
Inductive dispatch : Type :=
| Write (text : string)
| CallInit
| CallStatus
| CallAdd (path : string)
| CallCommit (message : string)
| CallLog
| CallBranch (name : option string)
| CallCheckout (branch : string)
| CallClone (url : string)
| CallConfig (args : list string).

Definition process_git_command (command : string) : dispatch :=
  let parts := split command in
  match parts with
  | [] => Write "Command not found: "
  | first :: rest =>
      if negb (first =? "git") then Write ("Command not found: " ++ first)
      else
        match rest with
        | [] => Write "usage: git <command> [<args>]"
        | cmd :: args =>
            if (cmd =? "init") then CallInit
            else if (cmd =? "status") then CallStatus
            else if (cmd =? "add") then
              match args with
              | [] => Write "Nothing specified, nothing added."
              | path :: _ => CallAdd path
              end
            else if (cmd =? "commit") then
              match list_index "-m" args with
              | Some idx =>
                  if Nat.ltb (idx + 1) (List.length args)
                  then CallCommit (join " " (skipn (idx + 1) args))
                  else Write "error: option -m requires a value"
              | None => Write "error: commit message required (-m flag)"
              end
            else if (cmd =? "log") then CallLog
            else if (cmd =? "branch") then
              match args with
              | name :: _ => CallBranch (Some name)
              | [] => CallBranch None
              end
            else if (cmd =? "checkout") then
              match args with
              | b :: _ => CallCheckout b
              | [] => Write "error: branch name required"
              end
            else if (cmd =? "clone") then
              match args with
              | url :: _ => CallClone url
              | [] => Write "fatal: You must specify a repository to clone."
              end
            else if (cmd =? "config") then
              match args with
              | key :: value :: _ => CallConfig [key; value]
              | [key] => CallConfig [key]
              | [] => CallConfig []
              end
            else Write ("git: '" ++ cmd ++ "' is not a git command. See 'git help'.")
        end
  end.

(** The commands of a session that a dispatch amounts to, given the
    working tree, the configuration and the two readings of the clock a
    commit would make. *)
Definition session_command (wt : WorkTree) (config : dict string)
    (now1 now2 : datetime) (d : dispatch) : option Session.command :=
  match d with
  | CallStatus => Some (Session.RunStatus wt)
  | CallAdd path => Some (Session.RunAdd wt path)
  | CallCommit message => Some (Session.RunCommit config now1 now2 message)
  | CallLog => Some Session.RunLog
  | CallBranch name => Some (Session.RunBranch name)
  | CallCheckout b => Some (Session.RunCheckout b)
  | _ => None
  end.

(** A word as [split] yields them on a line of ASCII characters: not
    empty, no white space. *)
Definition plain (c : ascii) : bool :=
  negb (isspace c) && Nat.ltb (nat_of_ascii c) 128.

Definition word (s : string) : bool :=
  negb (s =? "") && forallb plain (list_ascii_of_string s).

End Terminal.

(** ** Finding and creating the repository *)

Module Repository.
Import Py GitEmulator.
Local Open Scope string_scope.

Fixpoint drop_while (f : ascii -> bool) (l : list ascii) : list ascii :=
  match l with
  | [] => []
  | c :: l' => if f c then drop_while f l' else l
  end.

Definition is_slash (c : ascii) : bool := Ascii.eqb c "/".

(** [posixpath.dirname] on the characters of a path: [head] is the path up
    to and including its last slash ([p[:p.rfind('/') + 1]]); unless [head]
    is empty or all slashes, its trailing slashes are removed. *)
Definition dirname_chars (p : list ascii) : list ascii :=
  let head := rev (drop_while (fun c => negb (is_slash c)) (rev p)) in
  if negb (Nat.eqb (List.length head) 0) && negb (forallb is_slash head)
  then rev (drop_while is_slash (rev head))
  else head.

(** [os.path.dirname(p)] *)
Definition dirname (p : string) : string :=
  string_of_list_ascii (dirname_chars (list_ascii_of_string p)).

(** The loop of [get_git_dir], from [current]; [exists_] is
    [os.path.exists].  With no fuel left the answer is [None]; otherwise it
    is what the method returns, [Some None] for Python's [None]. *)
Fixpoint get_git_dir_from (fuel : nat) (exists_ : string -> bool)
    (current : string) : option (option string) :=
  match fuel with
  | O => None
  | S fuel' =>
      if (current =? dirname current) then Some None
      else
        let git_dir := path_join current ".git" in
        if exists_ git_dir then Some (Some git_dir)
        else get_git_dir_from fuel' exists_ (dirname current)
  end.

Definition get_git_dir (exists_ : string -> bool) (cwd : string)
    : option (option string) :=
  get_git_dir_from (S (String.length cwd)) exists_ cwd.

(** The [.git] directories of the disk, each with the document in its
    [index.json]: every [.git] is taken to hold one, as those [init]
    creates do. *)
Definition Disk : Type := string -> option Index.

Definition on_disk (disk : Disk) (path : string) : bool :=
  match disk path with Some _ => true | None => false end.

Definition write_index (disk : Disk) (git_dir : string) (index : Index) : Disk :=
  fun path => if (path =? git_dir) then Some index else disk path.

Definition init (cwd : string) (disk : Disk) : string * Disk :=
  let git_dir := path_join cwd ".git" in
  if on_disk disk git_dir then ("Repositório Git já inicializado.", disk)
  else ("Repositório Git inicializado em " ++ cwd,
        write_index disk git_dir initial_index).

(** The document [load_index] reads when the working directory is [cwd]:
    the state the commands of [GitEmulator] start from. *)
Definition store_at (disk : Disk) (cwd : string) : Store :=
  match get_git_dir (on_disk disk) cwd with
  | Some (Some git_dir) => disk git_dir
  | _ => None
  end.

End Repository.

(** ** The emulator as a Python object *)

Module Objects.
Import Py GitEmulator.
Local Open Scope string_scope.

(** What an attribute of a [GitEmulator] object can be: a value stored on
    the instance by [__init__] and [load_config], or a method of the
    class. *)
Inductive attribute : Type :=
| AStr (s : string)
| ADict (d : dict string)
| AMethod (name : string).

(** The names the class body binds, in order. *)
Definition class_methods : list string :=
  [ "__init__"; "load_config"; "save_config"; "init"; "get_git_dir";
    "load_index"; "save_index"; "status"; "get_untracked_files"; "add";
    "commit"; "log"; "branch"; "checkout"; "clone"; "config" ].

(** [load_config]: the dictionary of the configuration file when there is
    one, the default otherwise. *)
Definition load_config (config_file : option (dict string)) : dict string :=
  match config_file with
  | Some config => config
  | None => [("user.name", "User"); ("user.email", "user@example.com")]
  end.

(** The instance dictionary after [GitEmulator(cwd)]. *)
Definition new_emulator (cwd : string) (config_file : option (dict string))
    : dict attribute :=
  let self := setitem [] "cwd" (AStr cwd) in
  let self := setitem self "config" (ADict []) in
  setitem self "config" (ADict (load_config config_file)).

(** [self.<name>]: the instance dictionary first, then the class (methods
    are not data descriptors).  [None]: [AttributeError]. *)
Definition getattr (self : dict attribute) (name : string) : option attribute :=
  match get self name with
  | Some a => Some a
  | None => if existsb (String.eqb name) class_methods then Some (AMethod name) else None
  end.

(** [self.<name>(...)]: the method that runs, or the text of the
    exception the call raises before any method runs ([AttributeError] for
    a missing attribute, [TypeError] for a value that is not callable).
    [process_git_command] writes that text after ["Error: "]. *)
Definition call_attribute (self : dict attribute) (name : string) : string + string :=
  match getattr self name with
  | Some (AMethod method) => inr method
  | Some (ADict _) => inl "'dict' object is not callable"
  | Some (AStr _) => inl "'str' object is not callable"
  | None => inl ("'GitEmulator' object has no attribute '" ++ name ++ "'")
  end.

(** [self.git.cwd = self.cwd] in [change_directory]. *)
Definition set_cwd (self : dict attribute) (cwd : string) : dict attribute :=
  setitem self "cwd" (AStr cwd).

End Objects.

(** ** The document as a file

    [init] writes [index.json] with [json.dump(index, f)] and [save_index]
    with [json.dump(index, f, indent=2)].  The keys of the document come
    in the order of the literal of [init], which no command changes.  A
    text is written for documents whose strings hold ASCII characters
    only; Python writes every other character as [\uXXXX], which is not
    followed here: the answer is then [None]. *)

Module Json.
Import Py GitEmulator.
Local Open Scope string_scope.

Definition obind {A B : Type} (o : option A) (f : A -> option B) : option B :=
  match o with Some a => f a | None => None end.

Fixpoint all_some {A : Type} (l : list (option A)) : option (list A) :=
  match l with
  | [] => Some []
  | o :: l' => obind o (fun a => obind (all_some l') (fun r => Some (a :: r)))
  end.

(** One character inside a JSON string ([ensure_ascii] is on). *)
Definition escape_char (c : ascii) : option string :=
  let n := nat_of_ascii c in
  if Nat.eqb n 34 then Some (String backslash dq)
  else if Ascii.eqb c backslash then Some "\\"
  else if Nat.eqb n 10 then Some "\n"
  else if Nat.eqb n 13 then Some "\r"
  else if Nat.eqb n 9 then Some "\t"
  else if Nat.eqb n 8 then Some "\b"
  else if Nat.eqb n 12 then Some "\f"
  else if Nat.ltb n 32 || Nat.eqb n 127 then Some ("\u00" ++ SHA256.hex 2 (Z.of_nat n))
  else if Nat.ltb n 127 then Some (String c EmptyString)
  else None.

Fixpoint escape (s : string) : option string :=
  match s with
  | EmptyString => Some ""
  | String c s' =>
      obind (escape_char c) (fun a => obind (escape s') (fun b => Some (a ++ b)))
  end.

Definition dumps_str (s : string) : option string :=
  obind (escape s) (fun e => Some (dq ++ e ++ dq)).

Definition spaces (n : nat) : string := string_of_list_ascii (repeat " "%char n).

(** A dict or a list whose items are written already.  [indent] is the
    argument of [json.dump], [level] the depth of the container: with an
    indent every item goes on a line of its own, one level deeper, and the
    closing bracket on a line at the level of the container. *)
Definition container (indent : option nat) (level : nat)
    (opening closing : string) (items : list string) : string :=
  match items, indent with
  | [], _ => opening ++ closing
  | _ :: _, None => opening ++ join ", " items ++ closing
  | _ :: _, Some n =>
      let newline_indent := nl ++ spaces (n * (level + 1)) in
      opening ++ newline_indent ++ join ("," ++ newline_indent) items ++
      nl ++ spaces (n * level) ++ closing
  end.

Definition dumps_dict {V : Type} (dumps_value : V -> option string)
    (indent : option nat) (level : nat) (d : dict V) : option string :=
  obind
    (all_some
       (map (fun '(k, v) =>
               obind (dumps_str k) (fun key =>
               obind (dumps_value v) (fun value => Some (key ++ ": " ++ value))))
          d))
    (fun items => Some (container indent level "{" "}" items)).

(** The target of a branch: [None] is written [null]. *)
Definition dumps_target (target : option string) : option string :=
  match target with
  | None => Some "null"
  | Some h => dumps_str h
  end.

Definition dumps_value (indent : option nat) (level : nat) (v : value) : option string :=
  match v with
  | VStr s => dumps_str s
  | VDict d => dumps_dict dumps_str indent level d
  end.

Definition dumps_commit (indent : option nat) (level : nat) (c : Commit) : option string :=
  dumps_dict (dumps_value indent (level + 1)) indent level (commit_object c).

(** [json.dumps(index, indent=indent)] *)
Definition dumps (indent : option nat) (index : Index) : option string :=
  obind (dumps_dict dumps_str indent 1 (staged index)) (fun staged_text =>
  obind (all_some (map (dumps_commit indent 2) (commits index))) (fun commit_texts =>
  obind (dumps_dict dumps_target indent 1 (branches index)) (fun branches_text =>
  obind (dumps_str (current_branch index)) (fun current_text =>
  Some (container indent 0 "{" "}"
          [ dq ++ "staged" ++ dq ++ ": " ++ staged_text;
            dq ++ "commits" ++ dq ++ ": " ++ container indent 1 "[" "]" commit_texts;
            dq ++ "branches" ++ dq ++ ": " ++ branches_text;
            dq ++ "current_branch" ++ dq ++ ": " ++ current_text ]))))).

(** The path of [index.json], as [init], [load_index] and [save_index]
    build it from the root of the repository. *)
Definition index_file (wt : WorkTree) : string :=
  path_join (path_join (repo_root wt) ".git") "index.json".

(** The working tree once [index.json] holds [text]. *)
Definition with_index_file (wt : WorkTree) (text : string) : WorkTree :=
  {| repo_root := repo_root wt;
     walk := walk wt;
     lookup := fun p =>
       if (p =? index_file wt) then Some (File (encode text)) else lookup wt p |}.

(** The working tree once [index] has been written: by [init] with
    [indent = None], by [save_index] with [indent = Some 2]. *)
Definition written (wt : WorkTree) (indent : option nat) (index : Index) : WorkTree :=
  match dumps indent index with
  | Some text => with_index_file wt text
  | None => wt
  end.

End Json.

Example sha_abc : SHA256.hexdigest (list_byte_of_string "abc") =
  "ba7816bf8f01cfea414140de5dae2223b00361a396177a9cb410ff61f20015ad"%string.
Proof. vm_compute. reflexivity. Qed.

Example sha_empty : SHA256.hexdigest [] =
  "e3b0c44298fc1c149afbf4c8996fb92427ae41e4649b934ca495991b7852b855"%string.
Proof. vm_compute. reflexivity. Qed.

Example sha_two_blocks : SHA256.hexdigest (list_byte_of_string
  "abcdbcdecdefdefgefghfghighijhijkijkljklmklmnlmnomnopnopq") =
  "248d6a61d20638b8e5c026930c3e6039a33ce45964ff2167f6ecedd419db06c1"%string.
Proof. vm_compute. reflexivity. Qed.

(** * Properties *)

Import Py GitEmulator Session.
Local Open Scope string_scope.

(** ** Dictionaries *)

Section Dict.
Context {V : Type}.
Implicit Types (d : dict V) (k : string) (v : V).

Lemma truthy_false (A : Type) (l : list A) : truthy l = false <-> l = [].
Proof. destruct l; simpl; split; congruence. Qed.

Lemma truthy_true (A : Type) (l : list A) : truthy l = true <-> l <> [].
Proof. destruct l; simpl; split; congruence. Qed.

Lemma get_setitem_same d k v : get (setitem d k v) k = Some v.
Proof.
  induction d as [|[k' v'] d IH]; simpl.
  - now rewrite String.eqb_refl.
  - destruct (k' =? k) eqn:E; simpl; rewrite E; auto.
Qed.

Lemma get_setitem_other d k k' v : k' <> k -> get (setitem d k v) k' = get d k'.
Proof.
  intros Hne. induction d as [|[k0 v0] d IH]; simpl.
  - apply String.eqb_neq in Hne. now rewrite String.eqb_sym, Hne.
  - destruct (k0 =? k) eqn:E; simpl.
    + apply String.eqb_eq in E; subst k0.
      apply String.eqb_neq in Hne. now rewrite String.eqb_sym, Hne.
    + now rewrite IH.
Qed.

Lemma setitem_setitem d k v : setitem (setitem d k v) k v = setitem d k v.
Proof.
  induction d as [|[k' v'] d IH]; simpl.
  - now rewrite String.eqb_refl.
  - destruct (k' =? k) eqn:E; simpl; rewrite E; congruence.
Qed.

Lemma contains_setitem_same d k v : contains k (setitem d k v) = true.
Proof. unfold contains. now rewrite get_setitem_same. Qed.

Lemma contains_setitem_other d k k' v :
  k' <> k -> contains k' (setitem d k v) = contains k' d.
Proof. intros. unfold contains. now rewrite get_setitem_other. Qed.

Lemma contains_setitem_mono d k k' v :
  contains k' d = true -> contains k' (setitem d k v) = true.
Proof.
  intros H. destruct (String.eqb_spec k' k) as [->|Hne].
  - apply contains_setitem_same.
  - now rewrite contains_setitem_other.
Qed.

Lemma contains_get d k : contains k d = true <-> exists v, get d k = Some v.
Proof.
  unfold contains. destruct (get d k); split; intros H; eauto.
  - discriminate.
  - destruct H; discriminate.
Qed.

End Dict.

(** ** Running a command on a repository *)

Create HintDb git.

#[local] Hint Unfold status add commit log branch checkout
  status_body add_body commit_body log_body branch_body checkout_body
  try_except bind ret raise load_index save_index getitem_branch : git.

Ltac run_command := autounfold with git; simpl.

(** ** Commands that refuse to act *)

(** C4. With staged entries and an existing target branch, [checkout]
    answers that local changes would be overwritten and writes nothing:
    the current branch and the rest of the document stay as they were. *)
Theorem checkout_guard (name : string) (index : Index) :
  staged index <> [] ->
  contains name (branches index) = true ->
  checkout name (Some index) =
    ("error: Your local changes would be overwritten by checkout." ++ nl ++
     "Please commit your changes first.", Some index).
Proof.
  intros Hst Hbr. run_command. rewrite Hbr. simpl.
  apply truthy_true in Hst. now rewrite Hst.
Qed.

Lemma checkout_guard_witness :
  staged (Scenario.document Scenario.s5) <> [] /\
  contains "main" (branches (Scenario.document Scenario.s5)) = true /\
  checkout "main" (Some (Scenario.document Scenario.s5)) =
    ("error: Your local changes would be overwritten by checkout." ++ nl ++
     "Please commit your changes first.", Some (Scenario.document Scenario.s5)).
Proof.
  assert (H1 : staged (Scenario.document Scenario.s5) <> [])
    by (vm_compute; discriminate).
  assert (H2 : contains "main" (branches (Scenario.document Scenario.s5)) = true)
    by (vm_compute; reflexivity).
  exact (conj H1 (conj H2 (checkout_guard "main" _ H1 H2))).
Defined.

Lemma commit_nothing_staged_run (config : dict string) (now1 now2 : datetime)
    (message : string) (index : Index) :
  staged index = [] ->
  commit config now1 now2 message (Some index) =
    ("nothing to commit, working tree clean", Some index).
Proof.
  intros Hst. run_command. now rewrite Hst.
Qed.

(** C5. With nothing staged, [commit] answers that there is nothing to
    commit and writes nothing: commits, branches, current branch and staged
    entries stay as they were. *)
Theorem commit_nothing_staged (config : dict string) (now1 now2 : datetime)
    (message : string) (index : Index) :
  staged index = [] ->
  commit config now1 now2 message (Some index) =
    ("nothing to commit, working tree clean", Some index).
Proof. apply commit_nothing_staged_run. Qed.

Lemma commit_nothing_staged_witness :
  staged (Scenario.document Scenario.s7) = [] /\
  commit Scenario.config (Scenario.clock 3 7) (Scenario.clock 3 9) "third"
    (Some (Scenario.document Scenario.s7)) =
    ("nothing to commit, working tree clean", Some (Scenario.document Scenario.s7)).
Proof.
  assert (H1 : staged (Scenario.document Scenario.s7) = [])
    by (vm_compute; reflexivity).
  exact (conj H1 (commit_nothing_staged _ _ _ _ _ H1)).
Defined.

(** C6. [branch name] on an existing name answers that the branch already
    exists and writes nothing.  On a new name it adds the branch with the
    target of the current branch ([None] while that branch has no commit)
    and changes nothing else. *)
Theorem branch_create (name : string) (index : Index) :
  (contains name (branches index) = true ->
   branch (Some name) (Some index) =
     ("fatal: A branch named '" ++ name ++ "' already exists.", Some index)) /\
  (contains name (branches index) = false ->
   current_branch_exists index ->
   exists index',
     branch (Some name) (Some index) =
       ("Branch '" ++ name ++ "' created", Some index') /\
     get (branches index') name = get (branches index) (current_branch index) /\
     (forall other, other <> name ->
        get (branches index') other = get (branches index) other) /\
     staged index' = staged index /\
     commits index' = commits index /\
     current_branch index' = current_branch index).
Proof.
  split.
  - intros Hin. run_command. now rewrite Hin.
  - intros Hnew Hcur. apply contains_get in Hcur. destruct Hcur as [target Hcur].
    eexists. run_command. rewrite Hnew, Hcur. simpl.
    split; [reflexivity|]. simpl.
    split; [apply get_setitem_same|].
    split; [|auto].
    intros other Hne. now apply get_setitem_other.
Qed.

Lemma branch_create_witness :
  (contains "main" (branches (Scenario.document Scenario.s2)) = true /\
   branch (Some "main") (Some (Scenario.document Scenario.s2)) =
     ("fatal: A branch named 'main' already exists.", Scenario.s2)) /\
  (contains "feature" (branches (Scenario.document Scenario.s2)) = false /\
   current_branch_exists (Scenario.document Scenario.s2) /\
   exists index',
     branch (Some "feature") (Some (Scenario.document Scenario.s2)) =
       ("Branch 'feature' created", Some index') /\
     get (branches index') "feature" = Some (Some "dee9a752")).
Proof.
  split.
  - assert (H1 : contains "main" (branches (Scenario.document Scenario.s2)) = true)
      by (vm_compute; reflexivity).
    exact (conj H1 (proj1 (branch_create "main" _) H1)).
  - assert (H1 : contains "feature" (branches (Scenario.document Scenario.s2)) = false)
      by (vm_compute; reflexivity).
    assert (H2 : current_branch_exists (Scenario.document Scenario.s2))
      by (vm_compute; reflexivity).
    split; [exact H1|]. split; [exact H2|].
    destruct (proj2 (branch_create "feature" _) H1 H2) as (index' & Hrun & Hget & _).
    exists index'. split; [exact Hrun|]. rewrite Hget. vm_compute. reflexivity.
Defined.



Lemma status_store (wt : WorkTree) (s : Store) : snd (status wt s) = s.
Proof. run_command. destruct s as [index|]; reflexivity. Qed.

Lemma log_store (s : Store) : snd (log s) = s.
Proof.
  run_command. destruct s as [index|]; simpl; [|reflexivity].
  destruct (commits index); reflexivity.
Qed.

(** C10. [status] and [log] return their report and leave the persisted
    document (staged entries, commits, branches, current branch) as it
    was, whether or not a repository is found. *)
Theorem status_log_read_only (wt : WorkTree) (s : Store) :
  snd (status wt s) = s /\ snd (log s) = s.
Proof. split; [apply status_store | apply log_store]. Qed.

(** ** Committing *)

Import History.

Lemma last_commit_append (index : Index) (cs : list Commit) (c : Commit) :
  commits index = append cs c -> last_commit index = Some c.
Proof.
  unfold last_commit, append. intros ->. rewrite map_app. simpl.
  apply last_last.
Qed.

(** What a successful [commit] returns and writes. *)
Lemma commit_run (config : dict string) (now1 now2 : datetime)
    (message : string) (index : Index) :
  staged index <> [] ->
  let c := new_commit config now1 now2 index message in
  commit config now1 now2 message (Some index) =
    ("[" ++ current_branch index ++ " " ++ hash c ++ "] " ++ message ++ nl ++
     " " ++ str_nat (List.length (staged index)) ++ " files changed",
     Some {| staged := [];
             commits := append (commits index) c;
             branches := setitem (branches index) (current_branch index)
                           (Some (hash c));
             current_branch := current_branch index |}).
Proof.
  intros Hst c. apply truthy_true in Hst.
  run_command. now rewrite Hst.
Qed.

(** C1, amended. With staged entries, [commit] succeeds: it empties the
    staged entries, stores the new commit after all earlier ones and makes
    the current branch point at its hash, leaving the other branches and
    the current branch name alone.  The commit holds the staged entries,
    the message and the branch name; its object has no ["parent"] key. *)
Theorem commit_success (config : dict string) (now1 now2 : datetime)
    (message : string) (index : Index) :
  staged index <> [] ->
  let c := new_commit config now1 now2 index message in
  exists index',
    commit config now1 now2 message (Some index) =
      ("[" ++ current_branch index ++ " " ++ hash c ++ "] " ++ message ++ nl ++
       " " ++ str_nat (List.length (staged index)) ++ " files changed",
       Some index') /\
    staged index' = [] /\
    commits index' = append (commits index) c /\
    last_commit index' = Some c /\
    current_branch index' = current_branch index /\
    head_of index' = Some (hash c) /\
    (forall other, other <> current_branch index ->
       get (branches index') other = get (branches index) other) /\
    files c = staged index /\
    GitEmulator.message c = message /\
    branch_of c = current_branch index /\
    get (commit_object c) "parent" = None.
Proof.
  intros Hst c.
  eexists. split; [apply commit_run; exact Hst|]. simpl.
  repeat split.
  - now apply last_commit_append with (cs := commits index).
  - unfold head_of. simpl. now rewrite get_setitem_same.
  - intros other Hne. now apply get_setitem_other.
Qed.

Lemma commit_success_witness :
  staged (Scenario.document Scenario.s8) <> [] /\
  exists index',
    commit Scenario.config (Scenario.clock 3 7) (Scenario.clock 3 9) "third"
      (Some (Scenario.document Scenario.s8)) =
      ("[main 7b08b739] third" ++ nl ++ " 1 files changed", Some index') /\
    staged index' = [] /\
    head_of index' = Some "7b08b739".
Proof.
  assert (H1 : staged (Scenario.document Scenario.s8) <> [])
    by (vm_compute; discriminate).
  split; [exact H1|].
  destruct (commit_success Scenario.config (Scenario.clock 3 7) (Scenario.clock 3 9)
              "third" _ H1) as (index' & Hrun & Hst & _ & _ & _ & Hhead & _).
  exists index'. split; [|split].
  - rewrite Hrun. vm_compute. reflexivity.
  - exact Hst.
  - rewrite Hhead. vm_compute. reflexivity.
Defined.

(** C1 as stated fails.  In the session of [Scenario], [main] points at
    [dee9a752] when "third" is committed on it.  The new commit has no
    recorded parent, and the commit stored just before it is [474efd20],
    made on [feature]: neither is the previous head of [main]. *)
Lemma commit_parent_counterexample :
  let before := Scenario.document Scenario.s8 in
  let after :=
    Scenario.document
      (snd (commit Scenario.config (Scenario.clock 3 7) (Scenario.clock 3 9)
              "third" (Some before))) in
  staged before <> [] /\
  head_of before = Some "dee9a752" /\
  staged after = [] /\
  head_of after = Some "7b08b739" /\
  exists c,
    last_commit after = Some c /\ hash c = "7b08b739" /\
    recorded_parent c = None /\
    preceding (commits after) (hash c) = Some "474efd20" /\
    recorded_parent c <> head_of before /\
    preceding (commits after) (hash c) <> head_of before.
Proof.
  vm_compute.
  split; [discriminate|]. repeat (split; [reflexivity|]).
  eexists. repeat (split; [reflexivity|]). split; discriminate.
Qed.

(** ** The log *)

Lemma log_fold (cs : list Commit) (output : list string) :
  fold_left
    (fun output commit =>
       let output := append output ("commit " ++ hash commit) in
       let output := append output ("Author: " ++ author commit) in
       let output := append output ("Date:   " ++ date commit ++ nl) in
       append output ("    " ++ message commit ++ nl))
    cs output
  = (output ++ flat_map commit_lines cs)%list.
Proof.
  revert output. induction cs as [|c cs IH]; intros output; simpl.
  - now rewrite app_nil_r.
  - rewrite IH. unfold append, commit_lines.
    repeat rewrite <- app_assoc. reflexivity.
Qed.

Lemma log_lines_flat_map (index : Index) :
  log_lines index = flat_map commit_lines (rev (commits index)).
Proof. unfold log_lines. now rewrite log_fold. Qed.

(** C2, amended. [log] prints every commit of the document, the last
    stored first, whatever branch is current and whatever branch each was
    made on; with no commit at all it answers "No commits yet". *)
Theorem log_all_commits (index : Index) :
  log_lines index = flat_map commit_lines (rev (commits index)) /\
  (forall c, In c (commits index) -> In ("commit " ++ hash c) (log_lines index)) /\
  (commits index <> [] ->
     log (Some index) = (join nl (log_lines index), Some index)) /\
  (commits index = [] -> log (Some index) = ("No commits yet", Some index)).
Proof.
  split; [apply log_lines_flat_map|]. split; [|split].
  - intros c Hin. rewrite log_lines_flat_map. apply in_flat_map.
    exists c. split; [now apply in_rev in Hin|]. simpl. now left.
  - intros Hne. apply truthy_true in Hne. run_command. now rewrite Hne.
  - intros He. run_command. now rewrite He.
Qed.

Lemma log_all_commits_witness :
  let index := Scenario.document Scenario.s7 in
  let second :=
    {| hash := "474efd20"; message := "second";
       author := "User <user@example.com>"; date := "2026-11-03T17:29:02.000009";
       files := [("b.txt",
         "a1fce4363854ff888cff4b8e7875d600c2682390412a8cf79b37d0b11148b0fa")];
       branch_of := "feature" |} in
  In second (commits index) /\ commits index <> [] /\
  In "commit 474efd20" (log_lines index) /\
  log (Some index) = (join nl (log_lines index), Some index).
Proof.
  intros index second.
  assert (H1 : In second (commits index)) by (vm_compute; auto).
  assert (H2 : commits index <> []) by (vm_compute; discriminate).
  destruct (log_all_commits index) as (_ & Hin & Hrun & _).
  exact (conj H1 (conj H2 (conj (Hin second H1) (Hrun H2)))).
Defined.

(** C2 as stated fails.  After the session of [Scenario] up to the return
    to [main], the head of [main] is [dee9a752]; walking parents from it
    reaches that commit only, both with the parent a commit records (none)
    and with the commit stored before it (none either).  Yet [log] also
    prints [474efd20], made on [feature]. *)
Lemma log_counterexample :
  let index := Scenario.document Scenario.s7 in
  let recorded := fun (_ : list Commit) c => recorded_parent c in
  let stored_before := fun cs c => preceding cs (hash c) in
  current_branch index = "main" /\
  head_of index = Some "dee9a752" /\
  map hash (spec_log recorded index) = ["dee9a752"] /\
  map hash (spec_log stored_before index) = ["dee9a752"] /\
  option_map branch_of (find_commit "474efd20" (commits index)) = Some "feature" /\
  In "commit 474efd20" (log_lines index) /\
  log_lines index <> flat_map commit_lines (spec_log recorded index) /\
  log_lines index <> flat_map commit_lines (spec_log stored_before index).
Proof.
  vm_compute. repeat (split; [reflexivity|]).
  split; [auto|]. split; discriminate.
Qed.

(** ** The hash of a commit *)

Lemma length_append (s1 s2 : string) :
  String.length (s1 ++ s2) = String.length s1 + String.length s2.
Proof. induction s1; simpl; auto. Qed.

Lemma hex_length (k : nat) (x : Z) : String.length (SHA256.hex k x) = k.
Proof. induction k; simpl; auto. Qed.

Lemma hexdigest_length (msg : list byte) :
  String.length (SHA256.hexdigest msg) = 64.
Proof.
  unfold SHA256.hexdigest.
  destruct (SHA256.digest msg) as [[[[[[[a b] c] d] e] f] g] h].
  repeat rewrite length_append. repeat rewrite hex_length. reflexivity.
Qed.

Lemma slice_to_length (n : nat) (s : string) :
  n <= String.length s -> String.length (slice_to n s) = n.
Proof.
  unfold slice_to. revert s. induction n as [|n IH]; intros s Hn.
  - destruct s; reflexivity.
  - destruct s as [|a s]; simpl in *; [lia|].
    f_equal. apply IH. lia.
Qed.

(** C3, amended. The hash [commit] stores, and makes the current branch
    point at, is the first 8 hexadecimal digits of the SHA-256 of the
    message followed by the text of the clock at the time of hashing.  It
    is determined by those two alone: staged files, author, date and branch
    take no part in it, and no parent exists to take part. *)
Theorem commit_hash_of_message_and_clock (config : dict string)
    (now1 now2 : datetime) (message : string) (index : Index) :
  staged index <> [] ->
  let h := slice_to 8 (SHA256.hexdigest (encode (message ++ str_datetime now1))) in
  exists out index' c,
    commit config now1 now2 message (Some index) = (out, Some index') /\
    last_commit index' = Some c /\
    hash c = h /\
    head_of index' = Some h /\
    String.length h = 8.
Proof.
  intros Hst h.
  eexists _, _, _. split; [apply commit_run; exact Hst|].
  split; [now apply last_commit_append with (cs := commits index)|].
  split; [reflexivity|].
  split; [unfold head_of; simpl; now rewrite get_setitem_same|].
  apply slice_to_length. rewrite hexdigest_length. lia.
Qed.

Lemma commit_hash_of_message_and_clock_witness :
  staged (Scenario.document Scenario.s1) <> [] /\
  exists out index' c,
    commit Scenario.config (Scenario.clock 1 7) (Scenario.clock 1 9) "first"
      (Some (Scenario.document Scenario.s1)) = (out, Some index') /\
    last_commit index' = Some c /\
    hash c = "dee9a752" /\
    head_of index' = Some "dee9a752".
Proof.
  assert (H1 : staged (Scenario.document Scenario.s1) <> [])
    by (vm_compute; discriminate).
  split; [exact H1|].
  destruct (commit_hash_of_message_and_clock Scenario.config (Scenario.clock 1 7)
              (Scenario.clock 1 9) "first" _ H1)
    as (out & index' & c & Hrun & Hlast & Hhash & Hhead & _).
  exists out, index', c. split; [exact Hrun|]. split; [exact Hlast|]. split.
  - rewrite Hhash. vm_compute. reflexivity.
  - rewrite Hhead. vm_compute. reflexivity.
Defined.

(** C3 as stated fails, both ways.  Committing "first" at the same instant
    with [a.txt] staged by User on [main], and with [b.txt] staged by Ana
    on [feature], stores two commits that differ in files, author and
    branch and have the same hash.  Committing the same entries with the
    same message, author and date, but hashing one microsecond later,
    stores commits that agree on every field and differ in hash. *)
Lemma commit_hash_counterexample :
  let made config now1 now2 message s :=
    last_commit (Scenario.document (snd (commit config now1 now2 message s))) in
  (exists c1 c2,
     made Scenario.config (Scenario.clock 1 7) (Scenario.clock 1 9) "first"
       Scenario.s1 = Some c1 /\
     made Scenario.config_ana (Scenario.clock 1 7) (Scenario.clock 1 9) "first"
       Scenario.s5 = Some c2 /\
     files c1 <> files c2 /\ author c1 <> author c2 /\
     branch_of c1 <> branch_of c2 /\
     hash c1 = hash c2) /\
  (exists c1 c3,
     made Scenario.config (Scenario.clock 1 7) (Scenario.clock 1 9) "first"
       Scenario.s1 = Some c1 /\
     made Scenario.config (Scenario.clock 1 8) (Scenario.clock 1 9) "first"
       Scenario.s1 = Some c3 /\
     files c1 = files c3 /\ author c1 = author c3 /\ date c1 = date c3 /\
     message c1 = message c3 /\ branch_of c1 = branch_of c3 /\
     recorded_parent c1 = recorded_parent c3 /\
     hash c1 <> hash c3).
Proof.
  vm_compute. split.
  - eexists _, _. split; [reflexivity|]. split; [reflexivity|].
    repeat (split; [discriminate|]). reflexivity.
  - eexists _, _. split; [reflexivity|]. split; [reflexivity|].
    repeat (split; [reflexivity|]). discriminate.
Qed.

(** ** Untracked files *)

Section Untracked.
Variables (wt : WorkTree) (index : Index).

Lemma untracked_names (root : string) (names untracked : list string) :
  fold_left
    (fun untracked file =>
       let full_path := path_join root file in
       let rel_path := relpath full_path (repo_root wt) in
       if negb (contains rel_path (staged index)) then
         let committed :=
           if truthy (commits index) then
             match last_commit index with
             | Some c => contains rel_path (files c)
             | None => false
             end
           else false in
         if negb committed then append untracked rel_path else untracked
       else untracked)
    names untracked
  = (untracked ++
     filter (is_untracked index)
       (map (fun file => relpath (path_join root file) (repo_root wt)) names))%list.
Proof.
  revert untracked. induction names as [|file names IH]; intros untracked; simpl.
  - now rewrite app_nil_r.
  - rewrite IH. unfold is_untracked at 2, in_last_commit.
    destruct (contains _ (staged index)); simpl; [reflexivity|].
    match goal with |- context [negb ?b] => destruct b end; simpl;
      [reflexivity|].
    unfold append. now rewrite <- app_assoc.
Qed.

Lemma untracked_walk (w : list (string * list string)) (untracked : list string) :
  fold_left
    (fun untracked '(root, names) =>
       if substr ".git" root then untracked
       else
         fold_left
           (fun untracked file =>
              let full_path := path_join root file in
              let rel_path := relpath full_path (repo_root wt) in
              if negb (contains rel_path (staged index)) then
                let committed :=
                  if truthy (commits index) then
                    match last_commit index with
                    | Some c => contains rel_path (files c)
                    | None => false
                    end
                  else false in
                if negb committed then append untracked rel_path else untracked
              else untracked)
           names untracked)
    w untracked
  = (untracked ++
     filter (is_untracked index)
       (flat_map
          (fun '(root, names) =>
             if substr ".git" root then []
             else map (fun file => relpath (path_join root file) (repo_root wt)) names)
          w))%list.
Proof.
  revert untracked. induction w as [|[root names] w IH]; intros untracked; simpl.
  - now rewrite app_nil_r.
  - rewrite IH, filter_app. destruct (substr ".git" root); simpl.
    + reflexivity.
    + rewrite untracked_names. now rewrite <- app_assoc.
Qed.

Lemma get_untracked_files_filter :
  get_untracked_files wt index = filter (is_untracked index) (walked_paths wt).
Proof. unfold get_untracked_files, walked_paths. now rewrite untracked_walk. Qed.

Lemma in_untracked (p : string) :
  In p (get_untracked_files wt index) <->
  In p (walked_paths wt) /\ contains p (staged index) = false /\
  in_last_commit index p = false.
Proof.
  rewrite get_untracked_files_filter, filter_In. unfold is_untracked.
  rewrite andb_true_iff, !negb_true_iff. tauto.
Qed.

End Untracked.

Lemma in_walked_paths (wt : WorkTree) (p : string) :
  In p (walked_paths wt) <->
  exists root names file,
    In (root, names) (walk wt) /\ substr ".git" root = false /\
    In file names /\ p = relpath (path_join root file) (repo_root wt).
Proof.
  unfold walked_paths. rewrite in_flat_map. split.
  - intros ([root names] & Hw & Hin).
    destruct (substr ".git" root) eqn:E; [destruct Hin|].
    apply in_map_iff in Hin. destruct Hin as (file & <- & Hf).
    exists root, names, file. auto.
  - intros (root & names & file & Hw & E & Hf & ->).
    exists (root, names). split; [exact Hw|]. rewrite E.
    apply in_map_iff. eauto.
Qed.

(** ** Staging *)

(** One turn of the loop of [add(".")]: an exception, or one more staged
    entry; the store is not written. *)
Lemma stage_untracked_run (wt : WorkTree) (index : Index) (file : string) (s : Store) :
  (exists e, stage_untracked wt index file s = (inl e, s)) \/
  (exists index',
     stage_untracked wt index file s = (inr index', s) /\
     staged_by wt [file] index index').
Proof.
  unfold stage_untracked, exists_, read_bytes.
  destruct (lookup wt (path_join (repo_root wt) file)) as [[content|]|] eqn:E.
  - right. eexists. split; [reflexivity|].
    unfold staged_by, with_staged; simpl.
    repeat split; auto.
    + intros p Hp. apply get_setitem_other. intros ->. apply Hp. now left.
    + intros p Hp. now apply contains_setitem_mono.
    + intros p [<-|[]] _. apply contains_setitem_same.
    + intros H. specialize (H file (or_introl eq_refl)).
      unfold exists_ in H. rewrite E in H. discriminate.
  - left. eexists. reflexivity.
  - right. exists index. split; [reflexivity|].
    unfold staged_by. repeat split; auto.
    intros p [<-|[]] H. unfold exists_ in H. rewrite E in H. discriminate.
Qed.

Lemma stage_loop (wt : WorkTree) (l : list string) (index : Index) (s : Store) :
  (exists e, for_each l (stage_untracked wt) index s = (inl e, s)) \/
  (exists index',
     for_each l (stage_untracked wt) index s = (inr index', s) /\
     staged_by wt l index index').
Proof.
  revert index. induction l as [|file l IH]; intros index; simpl.
  - right. exists index. split; [reflexivity|].
    unfold staged_by. repeat split; auto; intros p [].
  - unfold bind.
    destruct (stage_untracked_run wt index file s)
      as [[e He]|(index1 & H1 & Hc1 & Hb1 & Hn1 & Hout1 & Hmono1 & Hin1 & Hskip1)].
    + left. exists e. now rewrite He.
    + rewrite H1.
      destruct (IH index1)
        as [[e He]|(index2 & H2 & Hc2 & Hb2 & Hn2 & Hout2 & Hmono2 & Hin2 & Hskip2)].
      * left. exists e. exact He.
      * right. exists index2. split; [exact H2|].
        unfold staged_by. repeat split.
        -- congruence.
        -- congruence.
        -- congruence.
        -- intros p Hp. rewrite Hout2, Hout1; auto.
           ++ intros [<-|[]]. apply Hp. now left.
           ++ intros Hl. apply Hp. now right.
        -- auto.
        -- intros p [<-|Hl] Hex.
           ++ apply Hmono2. apply Hin1; auto. now left.
           ++ now apply Hin2.
        -- intros Hall.
           rewrite Hskip2, Hskip1; auto.
           ++ intros p [<-|[]]. apply Hall. now left.
           ++ intros p Hp. apply Hall. now right.
Qed.

(** What [add(".")] returns and writes on a repository. *)
Lemma add_dot_run (wt : WorkTree) (index : Index) :
  (exists e, add wt "." (Some index) = (e, Some index)) \/
  (exists index',
     add wt "." (Some index) =
       ("Added " ++ str_nat (List.length (get_untracked_files wt index)) ++ " files",
        Some index') /\
     staged_by wt (get_untracked_files wt index) index index').
Proof.
  unfold add, try_except, add_body, bind, load_index. simpl.
  destruct (stage_loop wt (get_untracked_files wt index) index (Some index))
    as [[e He]|(index' & Hrun & Hby)].
  - left. exists e. now rewrite He.
  - right. exists index'. rewrite Hrun. simpl. auto.
Qed.





(** What [add path] writes for a file. *)
Lemma add_file_run (wt : WorkTree) (path : string) (content : list byte) (index : Index) :
  path <> "." ->
  lookup wt (path_join (repo_root wt) path) = Some (File content) ->
  add wt path (Some index) =
    ("Added '" ++ path ++ "' to stage",
     Some (with_staged index
             (setitem (staged index) path (SHA256.hexdigest content)))).
Proof.
  intros Hdot E. apply String.eqb_neq in Hdot.
  unfold add, try_except, add_body, bind, load_index. simpl. rewrite Hdot.
  unfold exists_, read_bytes. rewrite E. reflexivity.
Qed.

(** A path other than ["."] that is not a file: nothing is written. *)
Lemma add_no_file_store (wt : WorkTree) (path : string) (index : Index) :
  path <> "." ->
  (forall content, lookup wt (path_join (repo_root wt) path) <> Some (File content)) ->
  snd (add wt path (Some index)) = Some index.
Proof.
  intros Hdot Hno. apply String.eqb_neq in Hdot.
  unfold add, try_except, add_body, bind, load_index. simpl. rewrite Hdot.
  unfold exists_, read_bytes.
  destruct (lookup wt (path_join (repo_root wt) path)) as [[content|]|] eqn:E;
    simpl; try reflexivity.
  now destruct (Hno content).
Qed.

(** C7, where it fails.  [index.json] is a file below the root of the
    repository, and [add] rewrites it.  In a repository fresh from [init],
    [add(".git/index.json")] stages the digest of the file as [init] wrote
    it, then saves the document, which changes the file; a second
    [add(".git/index.json")] stages the digest of the file as the first
    left it.  Two adds in succession do not give the document of one. *)
Lemma add_index_file_counterexample :
  let path := ".git/index.json" in
  let d0 := "fb3619e6a8b37e7354256f56916e814bf26125b39ceea4cbe2a96885608a9b25" in
  let d1 := "e7417c230d0dffd2b4d44aa328563b5f0f830d27191a1f2b6d8687e9d119c0f7" in
  let once := with_staged initial_index [(path, d0)] in
  let twice := with_staged initial_index [(path, d1)] in
  path_join (repo_root Scenario.wt) path = Json.index_file Scenario.wt /\
  add (Json.written Scenario.wt None initial_index) path (Some initial_index)
    = ("Added '.git/index.json' to stage", Some once) /\
  add (Json.written Scenario.wt (Some 2) once) path (Some once)
    = ("Added '.git/index.json' to stage", Some twice) /\
  twice <> once.
Proof.
  vm_compute. split; [reflexivity|]. split; [reflexivity|].
  split; [reflexivity|discriminate].
Qed.

(** C7. Staging is idempotent for a file whose content has the same
    digest each time [add] reads it.  [wt1] is the file system the first
    [add path] runs on and [wt2] the one the second runs on, so that
    whatever happened in between is covered, the write of [index.json] by
    the first [add] included.  When the file at [path] yields the digest
    [d] in both, the first [add] stores [d] under [path] and touches
    nothing else, and the second leaves the document exactly as the first
    left it. *)
Theorem add_idempotent (wt1 wt2 : WorkTree) (path : string)
    (content1 content2 : list byte) (index : Index) :
  path <> "." ->
  lookup wt1 (path_join (repo_root wt1) path) = Some (File content1) ->
  lookup wt2 (path_join (repo_root wt2) path) = Some (File content2) ->
  SHA256.hexdigest content2 = SHA256.hexdigest content1 ->
  let d := SHA256.hexdigest content1 in
  let once := with_staged index (setitem (staged index) path d) in
  add wt1 path (Some index) = ("Added '" ++ path ++ "' to stage", Some once) /\
  add wt2 path (Some once) = ("Added '" ++ path ++ "' to stage", Some once) /\
  get (staged once) path = Some d /\
  (forall other, other <> path -> get (staged once) other = get (staged index) other).
Proof.
  intros Hdot E1 E2 Hd d once.
  split; [exact (add_file_run wt1 path content1 index Hdot E1)|].
  split.
  - rewrite (add_file_run wt2 path content2 once Hdot E2), Hd.
    unfold once, with_staged; cbn [staged commits branches current_branch].
    now rewrite setitem_setitem.
  - unfold once, with_staged; cbn [staged]. split.
    + apply get_setitem_same.
    + intros other Hne. now apply get_setitem_other.
Qed.

Lemma add_idempotent_witness :
  let index := Scenario.document Scenario.s2 in
  let d := "a1fce4363854ff888cff4b8e7875d600c2682390412a8cf79b37d0b11148b0fa" in
  let once := with_staged index (setitem (staged index) "b.txt" d) in
  "b.txt" <> "." /\
  lookup Scenario.wt (path_join (repo_root Scenario.wt) "b.txt")
    = Some (File (encode "y")) /\
  lookup Scenario.wt_edited (path_join (repo_root Scenario.wt_edited) "b.txt")
    = Some (File (encode "y")) /\
  SHA256.hexdigest (encode "y") = d /\
  add Scenario.wt "b.txt" (Some index) = ("Added 'b.txt' to stage", Some once) /\
  add Scenario.wt_edited "b.txt" (Some once) = ("Added 'b.txt' to stage", Some once) /\
  get (staged once) "b.txt" = Some d.
Proof.
  intros index d once.
  assert (H1 : "b.txt" <> ".") by discriminate.
  assert (H2 : lookup Scenario.wt (path_join (repo_root Scenario.wt) "b.txt")
               = Some (File (encode "y"))) by (vm_compute; reflexivity).
  assert (H3 : lookup Scenario.wt_edited
                 (path_join (repo_root Scenario.wt_edited) "b.txt")
               = Some (File (encode "y"))) by (vm_compute; reflexivity).
  assert (Hd : SHA256.hexdigest (encode "y") = d) by (vm_compute; reflexivity).
  split; [exact H1|]. split; [exact H2|]. split; [exact H3|]. split; [exact Hd|].
  pose proof (add_idempotent Scenario.wt Scenario.wt_edited "b.txt"
                (encode "y") (encode "y") index H1 H2 H3 eq_refl) as H.
  cbv zeta in H. rewrite Hd in H.
  destruct H as (Ha & Hb & Hc & _). exact (conj Ha (conj Hb Hc)).
Defined.

(** ** Documents a session can reach *)




(** The documents of [Scenario] are reached by its session, command after
    command from the document [init] writes. *)
Lemma scenario_reachable :
  reachable (Scenario.document Scenario.s7) /\
  reachable (Scenario.document Scenario.s8) /\
  reachable (Scenario.document Scenario.s9).
Proof.
  pose (step := fun c index (R : reachable index) index'
                    (H : run c (Some index) = (fst (run c (Some index)), Some index')) =>
                  reachable_step c index index' _ R H).
  assert (R1 : reachable (Scenario.document Scenario.s1))
    by (apply (step (RunAdd Scenario.wt "a.txt") _ reachable_init);
        vm_compute; reflexivity).
  assert (R2 : reachable (Scenario.document Scenario.s2))
    by (apply (step (RunCommit Scenario.config (Scenario.clock 1 7)
                       (Scenario.clock 1 9) "first") _ R1);
        vm_compute; reflexivity).
  assert (R3 : reachable (Scenario.document Scenario.s3))
    by (apply (step (RunBranch (Some "feature")) _ R2); vm_compute; reflexivity).
  assert (R4 : reachable (Scenario.document Scenario.s4))
    by (apply (step (RunCheckout "feature") _ R3); vm_compute; reflexivity).
  assert (R5 : reachable (Scenario.document Scenario.s5))
    by (apply (step (RunAdd Scenario.wt "b.txt") _ R4); vm_compute; reflexivity).
  assert (R6 : reachable (Scenario.document Scenario.s6))
    by (apply (step (RunCommit Scenario.config (Scenario.clock 2 7)
                       (Scenario.clock 2 9) "second") _ R5);
        vm_compute; reflexivity).
  assert (R7 : reachable (Scenario.document Scenario.s7))
    by (apply (step (RunCheckout "main") _ R6); vm_compute; reflexivity).
  assert (R8 : reachable (Scenario.document Scenario.s8))
    by (apply (step (RunAdd Scenario.wt "sub/c.txt") _ R7); vm_compute; reflexivity).
  assert (R9 : reachable (Scenario.document Scenario.s9))
    by (apply (step (RunCommit Scenario.config (Scenario.clock 3 7)
                       (Scenario.clock 3 9) "third") _ R8);
        vm_compute; reflexivity).
  auto.
Qed.

(** * Further properties of the commands *)

Import Effects.

Lemma contains_setitem (V : Type) (d : dict V) (k q : string) (v : V) :
  contains q (setitem d k v) = (q =? k) || contains q d.
Proof.
  destruct (String.eqb_spec q k) as [->|Hne]; simpl.
  - apply contains_setitem_same.
  - now apply contains_setitem_other.
Qed.

(** ** [checkout] *)

Lemma checkout_unknown_run (b : string) (index : Index) :
  contains b (branches index) = false ->
  checkout b (Some index) =
    ("error: pathspec '" ++ b ++ "' did not match any file(s) known to git",
     Some index).
Proof. intros H. run_command. now rewrite H. Qed.

Lemma checkout_switch_run (b : string) (index : Index) :
  contains b (branches index) = true ->
  staged index = [] ->
  checkout b (Some index) =
    ("Switched to branch '" ++ b ++ "'",
     Some {| staged := staged index; commits := commits index;
             branches := branches index; current_branch := b |}).
Proof. intros Hb Hs. run_command. now rewrite Hb, Hs. Qed.

Lemma checkout_staged_run (b : string) (index : Index) :
  contains b (branches index) = true ->
  staged index <> [] ->
  snd (checkout b (Some index)) = Some index.
Proof.
  intros Hb Hs. apply truthy_true in Hs. run_command. now rewrite Hb, Hs.
Qed.

(** ** [branch] *)

Lemma branch_exists_run (name : string) (index : Index) :
  contains name (branches index) = true ->
  branch (Some name) (Some index) =
    ("fatal: A branch named '" ++ name ++ "' already exists.", Some index).
Proof. intros H. run_command. now rewrite H. Qed.

Lemma branch_new_run (name : string) (target : option string) (index : Index) :
  contains name (branches index) = false ->
  get (branches index) (current_branch index) = Some target ->
  branch (Some name) (Some index) =
    ("Branch '" ++ name ++ "' created",
     Some {| staged := staged index; commits := commits index;
             branches := setitem (branches index) name target;
             current_branch := current_branch index |}).
Proof. intros Hn Hc. run_command. now rewrite Hn, Hc. Qed.

Lemma branch_keyerror_run (name : string) (index : Index) :
  contains name (branches index) = false ->
  get (branches index) (current_branch index) = None ->
  branch (Some name) (Some index) = (repr (current_branch index), Some index).
Proof. intros Hn Hc. run_command. now rewrite Hn, Hc. Qed.

Lemma branch_list_store (index : Index) : snd (branch None (Some index)) = Some index.
Proof. reflexivity. Qed.

(** ** Every command, one of five effects *)

Lemma staged_by_effect (wt : WorkTree) (l : list string) (index index' : Index) :
  staged_by wt l index index' -> effect index index'.
Proof.
  intros (Hc & Hb & Hn & _ & Hmono & _). now apply effect_stage.
Qed.

Ltac unchanged := simpl; eexists; split; [reflexivity | apply effect_none].

Lemma run_effect (c : command) (index : Index) (out : string) (s' : Store) :
  run c (Some index) = (out, s') ->
  exists index', s' = Some index' /\ effect index index'.
Proof.
  intros Hrun.
  assert (Hsnd : snd (run c (Some index)) = s') by now rewrite Hrun.
  clear Hrun. subst s'.
  destruct c as [wt|wt path|config now1 now2 message| |name|b]; cbn [run].
  - rewrite status_store. unchanged.
  - destruct (String.eqb_spec path ".") as [->|Hdot].
    + destruct (add_dot_run wt index) as [[e He]|(index1 & H1 & Hby)].
      * rewrite He. unchanged.
      * rewrite H1. simpl. eexists. split; [reflexivity|].
        eapply staged_by_effect; eassumption.
    + destruct (lookup wt (path_join (repo_root wt) path)) as [[content|]|] eqn:E.
      * rewrite (add_file_run wt path content index Hdot E). simpl.
        eexists. split; [reflexivity|].
        apply effect_stage; try reflexivity.
        intros p Hp. simpl. now apply contains_setitem_mono.
      * rewrite add_no_file_store; [unchanged|exact Hdot|].
        intros content; rewrite E; discriminate.
      * rewrite add_no_file_store; [unchanged|exact Hdot|].
        intros content; rewrite E; discriminate.
  - destruct (staged index) as [|e st] eqn:Est.
    + rewrite (commit_nothing_staged_run _ _ _ _ _ Est). unchanged.
    + assert (Hne : staged index <> []) by (rewrite Est; discriminate).
      rewrite (commit_run _ _ _ _ _ Hne). simpl.
      eexists. split; [reflexivity|]. now apply effect_commit.
  - rewrite log_store. unchanged.
  - destruct name as [name|]; [|rewrite branch_list_store; unchanged].
    destruct (contains name (branches index)) eqn:E.
    + rewrite (branch_exists_run _ _ E). unchanged.
    + destruct (get (branches index) (current_branch index)) as [target|] eqn:Ec.
      * rewrite (branch_new_run _ _ _ E Ec). simpl.
        eexists. split; [reflexivity|]. now apply effect_branch.
      * rewrite (branch_keyerror_run _ _ E Ec). unchanged.
  - destruct (contains b (branches index)) eqn:E.
    + destruct (staged index) as [|e st] eqn:Est.
      * rewrite (checkout_switch_run _ _ E Est). simpl.
        eexists. split; [reflexivity|]. now apply effect_checkout.
      * rewrite checkout_staged_run; [unchanged|exact E|].
        rewrite Est; discriminate.
    + rewrite (checkout_unknown_run _ _ E). unchanged.
Qed.

(** ** Hashes are hexadecimal *)

Lemma hexdigit_is_hex (n : Z) :
  (0 <= n < 16)%Z -> is_hex_digit (SHA256.hexdigit n) = true.
Proof.
  intros Hn. unfold SHA256.hexdigit.
  assert (Hm : Z.to_nat n < 16) by lia.
  generalize dependent (Z.to_nat n). intros m Hm.
  do 16 (destruct m as [|m]; [reflexivity|]). lia.
Qed.

Lemma all_hex_append (s1 s2 : string) :
  all_hex (s1 ++ s2) = all_hex s1 && all_hex s2.
Proof.
  induction s1 as [|a s1 IH]; simpl; [reflexivity|].
  now rewrite IH, andb_assoc.
Qed.

Lemma hex_all_hex (k : nat) (x : Z) : all_hex (SHA256.hex k x) = true.
Proof.
  induction k as [|k IH]; simpl; [reflexivity|].
  rewrite IH, andb_true_r. apply hexdigit_is_hex.
  apply Z.mod_pos_bound. lia.
Qed.

Lemma hexdigest_all_hex (msg : list byte) : all_hex (SHA256.hexdigest msg) = true.
Proof.
  unfold SHA256.hexdigest.
  destruct (SHA256.digest msg) as [[[[[[[a b] c] d] e] f] g] h].
  repeat rewrite all_hex_append. now rewrite !hex_all_hex.
Qed.

Lemma slice_to_all_hex (n : nat) (s : string) :
  all_hex s = true -> all_hex (slice_to n s) = true.
Proof.
  unfold slice_to. revert s. induction n as [|n IH]; intros s Hs.
  - destruct s; reflexivity.
  - destruct s as [|a s]; simpl in *; [reflexivity|].
    apply andb_true_iff in Hs. destruct Hs as [Ha Hs].
    now rewrite Ha, IH.
Qed.

Lemma new_commit_hash (config : dict string) (now1 now2 : datetime)
    (index : Index) (message : string) :
  String.length (hash (new_commit config now1 now2 index message)) = 8 /\
  all_hex (hash (new_commit config now1 now2 index message)) = true.
Proof.
  simpl. split.
  - apply slice_to_length. rewrite hexdigest_length. lia.
  - apply slice_to_all_hex, hexdigest_all_hex.
Qed.

(** ** What every command keeps *)

Lemma effect_refs_valid (index index' : Index) :
  effect index index' -> refs_valid index -> refs_valid index'.
Proof.
  intros Heff Hok.
  destruct Heff as [|index' Hc Hb Hn Hmono|config now1 now2 message Hst
                    |name target Hnew Hcur|b Hb Hst];
    unfold refs_valid in *; cbn [commits branches staged current_branch].
  - exact Hok.
  - rewrite Hc, Hb. exact Hok.
  - intros name h Hget.
    destruct (String.eqb_spec name (current_branch index)) as [->|Hne].
    + rewrite get_setitem_same in Hget. inversion Hget; subst h.
      exists (new_commit config now1 now2 index message).
      split; [|reflexivity]. unfold append. apply in_or_app.
      right. now left.
    + rewrite get_setitem_other in Hget by exact Hne.
      destruct (Hok name h Hget) as (c & Hin & Hh).
      exists c. split; [|exact Hh]. unfold append. apply in_or_app. now left.
  - intros k h Hget.
    destruct (String.eqb_spec k name) as [->|Hne].
    + rewrite get_setitem_same in Hget. inversion Hget; subst target.
      exact (Hok _ _ Hcur).
    + rewrite get_setitem_other in Hget by exact Hne. exact (Hok _ _ Hget).
  - exact Hok.
Qed.

Lemma effect_commits_ok (index index' : Index) :
  effect index index' -> commits_ok index -> commits_ok index'.
Proof.
  intros Heff Hok.
  destruct Heff as [|index' Hc Hb Hn Hmono|config now1 now2 message Hst
                    |name target Hnew Hcur|b Hb Hst];
    unfold commits_ok in *; cbn [commits branches staged current_branch].
  - exact Hok.
  - rewrite Hc, Hb. exact Hok.
  - intros c Hin. unfold append in Hin. apply in_app_or in Hin.
    destruct Hin as [Hin|[<-|[]]].
    + destruct (Hok c Hin) as (Hf & Hl & Hx & Hbr).
      repeat split; auto. now apply contains_setitem_mono.
    + destruct (new_commit_hash config now1 now2 index message) as [Hl Hx].
      repeat split; auto. apply contains_setitem_same.
  - intros c Hin. destruct (Hok c Hin) as (Hf & Hl & Hx & Hbr).
    repeat split; auto. now apply contains_setitem_mono.
  - exact Hok.
Qed.

Lemma keys_setitem (V : Type) (d : dict V) (k : string) (v : V) :
  keys (setitem d k v) =
  if contains k d then keys d else (keys d ++ [k])%list.
Proof.
  unfold contains, keys. induction d as [|[k' v'] d IH]; simpl; [reflexivity|].
  destruct (k' =? k) eqn:E; simpl; [reflexivity|].
  rewrite IH. now destruct (get d k).
Qed.

Lemma contains_in_keys (V : Type) (d : dict V) (k : string) :
  contains k d = true <-> In k (keys d).
Proof.
  unfold contains. induction d as [|[k' v'] d IH]; simpl.
  - split; [discriminate|tauto].
  - destruct (String.eqb_spec k' k) as [->|Hne].
    + split; auto.
    + rewrite IH. split; [auto|]. intros [H|H]; [contradiction|exact H].
Qed.

Lemma setitem_nodup (V : Type) (d : dict V) (k : string) (v : V) :
  NoDup (keys d) -> NoDup (keys (setitem d k v)).
Proof.
  intros Hnd. rewrite keys_setitem.
  destruct (contains k d) eqn:E; [exact Hnd|].
  apply NoDup_app; [exact Hnd|repeat constructor; intros []|].
  intros a Ha [<-|[]]. apply contains_in_keys in Ha. congruence.
Qed.

Lemma effect_branches_nodup (index index' : Index) :
  effect index index' ->
  NoDup (keys (branches index)) -> NoDup (keys (branches index')).
Proof.
  intros Heff Hnd.
  destruct Heff as [|index' Hc Hb Hn Hmono|config now1 now2 message Hst
                    |name target Hnew Hcur|b Hb Hst]; simpl.
  - exact Hnd.
  - now rewrite Hb.
  - now apply setitem_nodup.
  - now apply setitem_nodup.
  - exact Hnd.
Qed.

(** The invariants of the documents a session reaches. *)
Lemma reachable_invariants (index : Index) :
  reachable index ->
  refs_valid index /\ commits_ok index /\ NoDup (keys (branches index)).
Proof.
  induction 1 as [|c index index' out _ (IH1 & IH2 & IH3) Hrun].
  - split; [|split].
    + intros name h. unfold initial_index. cbn [branches get].
      destruct ("main" =? name); intros Hget; discriminate Hget.
    + intros c0 [].
    + repeat constructor. intros [].
  - destruct (run_effect c index out _ Hrun) as (index1 & Heq & Heff).
    inversion Heq; subst index1.
    split; [|split];
      [eapply effect_refs_valid|eapply effect_commits_ok|eapply effect_branches_nodup];
      eassumption.
Qed.

Lemma effect_keeps (index index' : Index) :
  effect index index' ->
  (commits index' = commits index \/
   exists c, commits index' = append (commits index) c) /\
  (forall k, contains k (branches index) = true ->
     contains k (branches index') = true) /\
  (forall k target, k <> current_branch index ->
     get (branches index) k = Some target ->
     get (branches index') k = Some target).
Proof.
  intros Heff.
  destruct Heff as [|index' Hc Hb Hn Hmono|config now1 now2 message Hst
                    |name target Hnew Hcur|b Hb Hst];
    cbn [commits branches staged current_branch].
  - auto.
  - rewrite Hc, Hb. auto.
  - split; [right; eauto|]. split.
    + intros k Hk. now apply contains_setitem_mono.
    + intros k t Hne Hk. now rewrite get_setitem_other.
  - split; [now left|]. split.
    + intros k Hk. now apply contains_setitem_mono.
    + intros k t Hne Hk. rewrite get_setitem_other; [exact Hk|].
      intros ->. unfold contains in Hnew. rewrite Hk in Hnew. discriminate.
  - auto.
Qed.

(** X1. [checkout] of a name that is not a branch answers with the
    pathspec error and writes nothing; the check comes first, so this is
    also the answer when entries are staged. *)
Theorem checkout_unknown_branch (b : string) (index : Index) :
  contains b (branches index) = false ->
  checkout b (Some index) =
    ("error: pathspec '" ++ b ++ "' did not match any file(s) known to git",
     Some index).
Proof. apply checkout_unknown_run. Qed.

Lemma checkout_unknown_branch_witness :
  let index := Scenario.document Scenario.s5 in
  contains "nope" (branches index) = false /\
  staged index <> [] /\
  checkout "nope" (Some index) =
    ("error: pathspec 'nope' did not match any file(s) known to git", Some index).
Proof.
  intros index.
  assert (H1 : contains "nope" (branches index) = false) by (vm_compute; reflexivity).
  assert (H2 : staged index <> []) by (vm_compute; discriminate).
  exact (conj H1 (conj H2 (checkout_unknown_branch "nope" index H1))).
Defined.

(** X2. With nothing staged, switching to an existing branch changes the
    current branch and nothing else, and switching back restores the
    document exactly. *)
Theorem checkout_round_trip (b : string) (index : Index) :
  staged index = [] ->
  contains b (branches index) = true ->
  contains (current_branch index) (branches index) = true ->
  exists index',
    checkout b (Some index) = ("Switched to branch '" ++ b ++ "'", Some index') /\
    current_branch index' = b /\
    staged index' = staged index /\
    commits index' = commits index /\
    branches index' = branches index /\
    checkout (current_branch index) (Some index') =
      ("Switched to branch '" ++ current_branch index ++ "'", Some index).
Proof.
  intros Hst Hb Hcur. eexists.
  split; [now apply checkout_switch_run|]. cbn [current_branch staged commits branches].
  repeat (split; [reflexivity|]).
  rewrite checkout_switch_run by assumption.
  cbn [current_branch staged commits branches]. now destruct index.
Qed.

Lemma checkout_round_trip_witness :
  let index := Scenario.document Scenario.s7 in
  staged index = [] /\
  contains "feature" (branches index) = true /\
  contains (current_branch index) (branches index) = true /\
  exists index',
    checkout "feature" (Some index) = ("Switched to branch 'feature'", Some index') /\
    current_branch index' = "feature" /\
    checkout "main" (Some index') = ("Switched to branch 'main'", Some index).
Proof.
  intros index.
  assert (H1 : staged index = []) by (vm_compute; reflexivity).
  assert (H2 : contains "feature" (branches index) = true) by (vm_compute; reflexivity).
  assert (H3 : contains (current_branch index) (branches index) = true)
    by (vm_compute; reflexivity).
  split; [exact H1|]. split; [exact H2|]. split; [exact H3|].
  destruct (checkout_round_trip "feature" index H1 H2 H3)
    as (index' & Hgo & Hcur & _ & _ & _ & Hback).
  exists index'. split; [exact Hgo|]. split; [exact Hcur|]. exact Hback.
Defined.

(** X3. Outside a repository every command answers "fatal: not a git
    repository" and creates nothing. *)
Theorem not_a_repository (c : command) :
  run c None = ("fatal: not a git repository", None).
Proof. destruct c; reflexivity. Qed.

(** X4. No command removes or alters a stored commit (at most one is
    appended), removes a branch, or moves a branch other than the current
    one; and a repository that was found is still there afterwards. *)
Theorem commands_keep_history (c : command) (index : Index) (out : string) (s' : Store) :
  run c (Some index) = (out, s') ->
  exists index',
    s' = Some index' /\
    (commits index' = commits index \/
     exists c0, commits index' = append (commits index) c0) /\
    (forall k, contains k (branches index) = true ->
       contains k (branches index') = true) /\
    (forall k target, k <> current_branch index ->
       get (branches index) k = Some target ->
       get (branches index') k = Some target).
Proof.
  intros Hrun. destruct (run_effect c index out s' Hrun) as (index' & -> & Heff).
  exists index'. split; [reflexivity|]. now apply effect_keeps.
Qed.

Lemma commands_keep_history_witness :
  let index := Scenario.document Scenario.s8 in
  let c := RunCommit Scenario.config (Scenario.clock 3 7) (Scenario.clock 3 9) "third" in
  run c (Some index) = (fst (run c (Some index)), Scenario.s9) /\
  exists index',
    Scenario.s9 = Some index' /\
    (commits index' = commits index \/
     exists c0, commits index' = append (commits index) c0) /\
    (forall k, contains k (branches index) = true ->
       contains k (branches index') = true) /\
    (forall k target, k <> current_branch index ->
       get (branches index) k = Some target ->
       get (branches index') k = Some target).
Proof.
  intros index c.
  assert (H1 : run c (Some index) = (fst (run c (Some index)), Scenario.s9))
    by (vm_compute; reflexivity).
  exact (conj H1 (commands_keep_history c index _ _ H1)).
Defined.

(** X5. In every document a session reaches from [init], a branch that
    has a target points at the hash of a stored commit: no command leaves a
    dangling branch. *)
Theorem reachable_refs_valid (index : Index) (name h : string) :
  reachable index ->
  get (branches index) name = Some (Some h) ->
  exists c, In c (commits index) /\ hash c = h.
Proof.
  intros Hr. destruct (reachable_invariants index Hr) as (Hrefs & _ & _).
  apply Hrefs.
Qed.

Lemma reachable_refs_valid_witness :
  let index := Scenario.document Scenario.s9 in
  reachable index /\
  get (branches index) "main" = Some (Some "7b08b739") /\
  exists c, In c (commits index) /\ hash c = "7b08b739".
Proof.
  intros index.
  assert (H1 : reachable index) by apply scenario_reachable.
  assert (H2 : get (branches index) "main" = Some (Some "7b08b739"))
    by (vm_compute; reflexivity).
  exact (conj H1 (conj H2 (reachable_refs_valid index "main" "7b08b739" H1 H2))).
Defined.

(** X6. In every document a session reaches from [init], each stored
    commit lists at least one file, is named by exactly 8 lower-case
    hexadecimal digits and carries the name of a branch that exists. *)
Theorem reachable_commits_ok (index : Index) (c : Commit) :
  reachable index ->
  In c (commits index) ->
  files c <> [] /\
  String.length (hash c) = 8 /\
  all_hex (hash c) = true /\
  contains (branch_of c) (branches index) = true.
Proof.
  intros Hr. destruct (reachable_invariants index Hr) as (_ & Hok & _).
  apply Hok.
Qed.

Lemma reachable_commits_ok_witness :
  let index := Scenario.document Scenario.s9 in
  exists c,
    reachable index /\ In c (commits index) /\
    branch_of c = "feature" /\
    files c <> [] /\ String.length (hash c) = 8 /\ all_hex (hash c) = true /\
    contains (branch_of c) (branches index) = true.
Proof.
  intros index.
  assert (H1 : reachable index) by apply scenario_reachable.
  eexists. split; [exact H1|].
  assert (H2 : In (nth 1 (commits index) (new_commit [] (Scenario.clock 0 0)
                      (Scenario.clock 0 0) index "")) (commits index))
    by (vm_compute; auto).
  split; [exact H2|]. split; [vm_compute; reflexivity|].
  exact (reachable_commits_ok index _ H1 H2).
Defined.

(** ** Staging, committing and the untracked files *)

Import Views.

Lemma filter_and (A : Type) (f g : A -> bool) (l : list A) :
  filter (fun x => f x && g x) l = filter g (filter f l).
Proof.
  induction l as [|x l IH]; simpl; [reflexivity|].
  destruct (f x); simpl; [|exact IH].
  destruct (g x); now rewrite IH.
Qed.

Lemma filter_none (A : Type) (f : A -> bool) (l : list A) :
  (forall x, In x l -> f x = false) -> filter f l = [].
Proof.
  induction l as [|x l IH]; intros H; simpl; [reflexivity|].
  rewrite (H x (or_introl eq_refl)). apply IH. intros y Hy. apply H. now right.
Qed.

Lemma in_last_commit_same (index index' : Index) (p : string) :
  commits index' = commits index ->
  in_last_commit index' p = in_last_commit index p.
Proof. unfold in_last_commit, last_commit. now intros ->. Qed.

(** X7. Staging a file takes it, and it alone, off the list of untracked
    files: the others stay listed, in the same order. *)
Theorem untracked_after_add (wt : WorkTree) (path : string) (content : list byte)
    (index : Index) :
  path <> "." ->
  lookup wt (path_join (repo_root wt) path) = Some (File content) ->
  exists index',
    add wt path (Some index) = ("Added '" ++ path ++ "' to stage", Some index') /\
    get (staged index') path = Some (SHA256.hexdigest content) /\
    get_untracked_files wt index' =
      filter (fun q => negb (q =? path)) (get_untracked_files wt index).
Proof.
  intros Hdot E. eexists. split; [apply (add_file_run wt path content index Hdot E)|].
  split; [apply get_setitem_same|].
  rewrite !get_untracked_files_filter, <- filter_and.
  apply filter_ext. intros q. unfold is_untracked, with_staged.
  cbn [staged]. rewrite contains_setitem.
  rewrite (in_last_commit_same index _ q) by reflexivity.
  destruct (q =? path), (contains q (staged index)), (in_last_commit index q);
    reflexivity.
Qed.

Lemma untracked_after_add_witness :
  let index := Scenario.document Scenario.s2 in
  "b.txt" <> "." /\
  lookup Scenario.wt (path_join (repo_root Scenario.wt) "b.txt")
    = Some (File (encode "y")) /\
  get_untracked_files Scenario.wt index = ["b.txt"; "sub/c.txt"] /\
  exists index',
    add Scenario.wt "b.txt" (Some index) = ("Added 'b.txt' to stage", Some index') /\
    get_untracked_files Scenario.wt index' = ["sub/c.txt"].
Proof.
  intros index.
  assert (H1 : "b.txt" <> ".") by discriminate.
  assert (H2 : lookup Scenario.wt (path_join (repo_root Scenario.wt) "b.txt")
               = Some (File (encode "y"))) by (vm_compute; reflexivity).
  assert (H3 : get_untracked_files Scenario.wt index = ["b.txt"; "sub/c.txt"])
    by (vm_compute; reflexivity).
  split; [exact H1|]. split; [exact H2|]. split; [exact H3|].
  destruct (untracked_after_add Scenario.wt "b.txt" _ index H1 H2)
    as (index' & Hrun & _ & Hun).
  exists index'. split; [exact Hrun|]. rewrite Hun, H3. reflexivity.
Defined.



(** The loop of [add(".")] when every file can be read: no exception, and
    each file is staged under the digest of its content. *)
Lemma stage_loop_readable (wt : WorkTree) (l : list string) (index : Index) (s : Store) :
  (forall p, In p l ->
     exists content, lookup wt (path_join (repo_root wt) p) = Some (File content)) ->
  exists index',
    for_each l (stage_untracked wt) index s = (inr index', s) /\
    staged_by wt l index index' /\
    (forall p content,
       lookup wt (path_join (repo_root wt) p) = Some (File content) ->
       In p l \/ get (staged index) p = Some (SHA256.hexdigest content) ->
       get (staged index') p = Some (SHA256.hexdigest content)).
Proof.
  revert index. induction l as [|file l IH]; intros index Hread.
  - exists index. split; [reflexivity|]. split.
    + unfold staged_by. repeat split; auto; intros p [].
    + intros p content _ [[]|H]. exact H.
  - destruct (Hread file (or_introl eq_refl)) as [content0 E0].
    destruct (stage_untracked_run wt index file s) as [[e He]|(index1 & H1 & Hby1)].
    { exfalso. revert He. unfold stage_untracked, exists_, read_bytes.
      rewrite E0. discriminate. }
    assert (Hval1 : staged index1 = setitem (staged index) file (SHA256.hexdigest content0)).
    { revert H1. unfold stage_untracked, exists_, read_bytes. rewrite E0.
      intros H1; inversion H1; reflexivity. }
    destruct (IH index1) as (index2 & H2 & Hby2 & Hval2).
    { intros p Hp. apply Hread. now right. }
    exists index2. split; [simpl; unfold bind; now rewrite H1|]. split.
    + destruct Hby1 as (Hc1 & Hb1 & Hn1 & Hout1 & Hmono1 & Hin1 & Hskip1).
      destruct Hby2 as (Hc2 & Hb2 & Hn2 & Hout2 & Hmono2 & Hin2 & Hskip2).
      unfold staged_by. repeat split; try congruence.
      * intros p Hp. rewrite Hout2, Hout1; auto.
        -- intros [<-|[]]. apply Hp. now left.
        -- intros Hl. apply Hp. now right.
      * auto.
      * intros p [<-|Hl] Hex; [apply Hmono2, Hin1; auto; now left|now apply Hin2].
      * intros Hall. rewrite Hskip2, Hskip1; auto.
        -- intros p [<-|[]]. apply Hall. now left.
        -- intros p Hp. apply Hall. now right.
    + intros p content E [[<-|Hl]|Hold].
      * apply Hval2; [exact E|]. right. rewrite Hval1, get_setitem_same. congruence.
      * apply Hval2; auto.
      * apply Hval2; [exact E|]. right. rewrite Hval1.
        destruct (String.eqb_spec p file) as [->|Hne].
        -- rewrite get_setitem_same. congruence.
        -- now rewrite get_setitem_other.
Qed.

(** X9. When every untracked file can be read, [add(".")] stages each of
    them under the SHA-256 digest of its content, leaves the other entries
    alone, and no file is untracked afterwards. *)
Theorem add_dot_stages_everything (wt : WorkTree) (index : Index) :
  (forall p, In p (get_untracked_files wt index) ->
     exists content, lookup wt (path_join (repo_root wt) p) = Some (File content)) ->
  exists index',
    add wt "." (Some index) =
      ("Added " ++ str_nat (List.length (get_untracked_files wt index)) ++ " files",
       Some index') /\
    (forall p content, In p (get_untracked_files wt index) ->
       lookup wt (path_join (repo_root wt) p) = Some (File content) ->
       get (staged index') p = Some (SHA256.hexdigest content)) /\
    (forall p, ~ In p (get_untracked_files wt index) ->
       get (staged index') p = get (staged index) p) /\
    get_untracked_files wt index' = [].
Proof.
  intros Hread.
  destruct (stage_loop_readable wt _ index (Some index) Hread)
    as (index' & Hrun & Hby & Hval).
  exists index'. split.
  { unfold add, try_except, add_body, bind, load_index. simpl.
    unfold bind in Hrun. now rewrite Hrun. }
  destruct Hby as (Hc & Hb & Hn & Hout & Hmono & Hin & _).
  split; [intros p content Hp E; apply Hval; auto|]. split; [exact Hout|].
  rewrite get_untracked_files_filter. apply filter_none. intros p Hw.
  unfold is_untracked.
  destruct (contains p (staged index')) eqn:Est'; [reflexivity|]. simpl.
  destruct (in_last_commit index' p) eqn:Elast; [reflexivity|]. exfalso.
  assert (Hu : In p (get_untracked_files wt index)).
  { apply in_untracked. split; [exact Hw|]. split.
    - destruct (contains p (staged index)) eqn:E; [|reflexivity].
      apply Hmono in E. congruence.
    - now rewrite <- (in_last_commit_same index index' p Hc). }
  destruct (Hread p Hu) as [content E].
  rewrite Hin in Est'; [discriminate|exact Hu|].
  unfold exists_. now rewrite E.
Qed.

Lemma add_dot_stages_everything_witness :
  let index := Scenario.document Scenario.s2 in
  (forall p, In p (get_untracked_files Scenario.wt index) ->
     exists content,
       lookup Scenario.wt (path_join (repo_root Scenario.wt) p) = Some (File content)) /\
  exists index',
    add Scenario.wt "." (Some index) = ("Added 2 files", Some index') /\
    get (staged index') "b.txt" = Some (SHA256.hexdigest (encode "y")) /\
    get_untracked_files Scenario.wt index' = [].
Proof.
  intros index.
  assert (H3 : get_untracked_files Scenario.wt index = ["b.txt"; "sub/c.txt"])
    by (vm_compute; reflexivity).
  assert (H1 : forall p, In p (get_untracked_files Scenario.wt index) ->
     exists content,
       lookup Scenario.wt (path_join (repo_root Scenario.wt) p) = Some (File content)).
  { rewrite H3. intros p [<-|[<-|[]]]; eexists; vm_compute; reflexivity. }
  split; [exact H1|].
  destruct (add_dot_stages_everything Scenario.wt index H1)
    as (index' & Hrun & Hval & _ & Hnone).
  exists index'. split; [|split; [|exact Hnone]].
  - rewrite Hrun, H3. reflexivity.
  - apply Hval; [rewrite H3; now left|vm_compute; reflexivity].
Defined.

Lemma repr_unquoted (s : string) :
  unquoted s = true -> repr s = "'" ++ s ++ "'".
Proof.
  intros Hs.
  assert (Hbody : repr_from "'" s = s ++ "'").
  { unfold unquoted in Hs. induction s as [|c s IH]; [reflexivity|].
    cbn [list_ascii_of_string forallb] in Hs.
    apply andb_true_iff in Hs. destruct Hs as [Hc Hs].
    cbn [repr_from]. rewrite (IH Hs).
    apply andb_true_iff in Hc. destruct Hc as [Hc Hb].
    apply andb_true_iff in Hc. destruct Hc as [Hc Hq].
    apply andb_true_iff in Hc. destruct Hc as [Hlo Hhi].
    apply negb_true_iff in Hb, Hq.
    apply Nat.leb_le in Hlo, Hhi.
    unfold repr_char. rewrite Hq, Hb. cbn [orb].
    replace (Nat.eqb (nat_of_ascii c) 9) with false
      by (symmetry; apply Nat.eqb_neq; lia).
    replace (Nat.eqb (nat_of_ascii c) 10) with false
      by (symmetry; apply Nat.eqb_neq; lia).
    replace (Nat.eqb (nat_of_ascii c) 13) with false
      by (symmetry; apply Nat.eqb_neq; lia).
    replace (Nat.ltb (nat_of_ascii c) 32) with false
      by (symmetry; apply Nat.ltb_ge; lia).
    replace (Nat.eqb (nat_of_ascii c) 127) with false
      by (symmetry; apply Nat.eqb_neq; lia).
    reflexivity. }
  assert (Hno : has_char "'" s = false).
  { unfold unquoted in Hs. unfold has_char.
    induction (list_ascii_of_string s) as [|c l IH]; [reflexivity|].
    cbn [forallb existsb] in *.
    apply andb_true_iff in Hs. destruct Hs as [Hc Hs].
    apply andb_true_iff in Hc. destruct Hc as [Hc _].
    apply andb_true_iff in Hc. destruct Hc as [_ Hq].
    apply negb_true_iff in Hq. rewrite Ascii.eqb_sym, Hq. now apply IH. }
  unfold repr. rewrite Hno. cbn [andb]. now rewrite Hbody.
Qed.

(** X10. [add] of a directory (other than ["."]) does not stage what is
    below it: opening it fails, the text of that error is the answer, and
    nothing is written.  The text ends with [repr] of the full path, here
    for paths of ASCII characters: the path between apostrophes when it
    holds printable characters only and neither an apostrophe nor a
    backslash. *)
Theorem add_directory (wt : WorkTree) (path : string) (index : Index) :
  path <> "." ->
  lookup wt (path_join (repo_root wt) path) = Some Dir ->
  Terminal.ascii_only (path_join (repo_root wt) path) = true ->
  add wt path (Some index) =
    ("[Errno 21] Is a directory: " ++ repr (path_join (repo_root wt) path),
     Some index) /\
  (unquoted (path_join (repo_root wt) path) = true ->
   add wt path (Some index) =
     ("[Errno 21] Is a directory: '" ++ path_join (repo_root wt) path ++ "'",
      Some index)).
Proof.
  intros Hdot E _. apply String.eqb_neq in Hdot.
  assert (Hrun : add wt path (Some index) =
            ("[Errno 21] Is a directory: " ++ repr (path_join (repo_root wt) path),
             Some index)).
  { unfold add, try_except, add_body, bind, load_index. simpl. rewrite Hdot.
    unfold exists_, read_bytes. rewrite E. reflexivity. }
  split; [exact Hrun|].
  intros Hu. rewrite Hrun. now rewrite (repr_unquoted _ Hu).
Qed.

Lemma add_directory_witness :
  let wt := {| repo_root := "/home/u/proj";
               walk := [ ("/home/u/proj", []); ("/home/u/proj/sub", []);
                         ("/home/u/proj/it's", []) ];
               lookup := fun p =>
                 if p =? "/home/u/proj/sub" then Some Dir
                 else if p =? "/home/u/proj/it's" then Some Dir
                 else None |} in
  let index := Scenario.document Scenario.s2 in
  ("sub" <> "." /\
   lookup wt (path_join (repo_root wt) "sub") = Some Dir /\
   Terminal.ascii_only (path_join (repo_root wt) "sub") = true /\
   unquoted (path_join (repo_root wt) "sub") = true /\
   add wt "sub" (Some index) =
     ("[Errno 21] Is a directory: '/home/u/proj/sub'", Some index)) /\
  ("it's" <> "." /\
   lookup wt (path_join (repo_root wt) "it's") = Some Dir /\
   Terminal.ascii_only (path_join (repo_root wt) "it's") = true /\
   add wt "it's" (Some index) =
     ("[Errno 21] Is a directory: " ++ dq ++ "/home/u/proj/it's" ++ dq, Some index)).
Proof.
  intros wt index. split.
  - assert (H1 : "sub" <> ".") by discriminate.
    assert (H2 : lookup wt (path_join (repo_root wt) "sub") = Some Dir)
      by (vm_compute; reflexivity).
    assert (H3 : Terminal.ascii_only (path_join (repo_root wt) "sub") = true)
      by (vm_compute; reflexivity).
    assert (H4 : unquoted (path_join (repo_root wt) "sub") = true)
      by (vm_compute; reflexivity).
    exact (conj H1 (conj H2 (conj H3 (conj H4
             (proj2 (add_directory wt "sub" index H1 H2 H3) H4))))).
  - assert (H1 : "it's" <> ".") by discriminate.
    assert (H2 : lookup wt (path_join (repo_root wt) "it's") = Some Dir)
      by (vm_compute; reflexivity).
    assert (H3 : Terminal.ascii_only (path_join (repo_root wt) "it's") = true)
      by (vm_compute; reflexivity).
    exact (conj H1 (conj H2 (conj H3
             (proj1 (add_directory wt "it's" index H1 H2 H3))))).
Defined.

(** ** The reports *)

Lemma fold_append_map (A : Type) (f : A -> string) (l : list A) (output : list string) :
  fold_left (fun output x => append output (f x)) l output = (output ++ map f l)%list.
Proof.
  revert output. induction l as [|x l IH]; intros output; simpl.
  - now rewrite app_nil_r.
  - rewrite IH. unfold append. now rewrite <- app_assoc.
Qed.






Lemma status_lines_app (wt : WorkTree) (index : Index) :
  let untracked := get_untracked_files wt index in
  let branch_part := ["On branch " ++ current_branch index] in
  let commits_part :=
    if truthy (commits index) then [] else [nl ++ "No commits yet" ++ nl] in
  let staged_part :=
    if truthy (staged index) then
      (nl ++ "Changes to be committed:")
      :: ("  (use " ++ dq ++ "git reset HEAD <file>..." ++ dq ++ " to unstage)" ++ nl)
      :: map (fun file => "        modified:   " ++ file) (keys (staged index))
    else [] in
  let untracked_part :=
    if truthy untracked then
      (nl ++ "Untracked files:")
      :: ("  (use " ++ dq ++ "git add <file>..." ++ dq ++
          " to include in what will be committed)" ++ nl)
      :: map (fun file => "        " ++ file) untracked
    else [] in
  let clean_part :=
    if negb (truthy (staged index)) && negb (truthy untracked)
    then [nl ++ "nothing to commit, working tree clean"] else [] in
  status_lines wt index =
  (branch_part ++ commits_part ++ staged_part ++ untracked_part ++ clean_part)%list.
Proof.
  cbv zeta. unfold status_lines.
  rewrite (fold_append_map _ (fun file => "        modified:   " ++ file)).
  rewrite (fold_append_map _ (fun file => "        " ++ file)).
  unfold append.
  destruct (truthy (commits index)), (truthy (staged index)),
    (truthy (get_untracked_files wt index)); cbn [negb andb List.app];
    rewrite <- ?app_assoc; cbn [List.app]; rewrite ?app_nil_r; reflexivity.
Qed.

(** *** Texts joined line by line *)

Lemma string_app_assoc (a b c : string) : (a ++ b) ++ c = a ++ b ++ c.
Proof. induction a as [|x a IH]; [reflexivity|]. simpl. now rewrite IH. Qed.

Lemma append_empty (s : string) : s ++ "" = s.
Proof. induction s as [|c s IH]; [reflexivity|]. simpl. now rewrite IH. Qed.

Lemma join_empty_cons (a : string) (m : list string) : join "" (a :: m) = a ++ join "" m.
Proof. destruct m as [|b m]; [symmetry; apply append_empty|reflexivity]. Qed.

Lemma join_empty_app (l1 l2 : list string) :
  join "" (l1 ++ l2) = join "" l1 ++ join "" l2.
Proof.
  induction l1 as [|a l1 IH]; [reflexivity|].
  change ((a :: l1) ++ l2)%list with (a :: (l1 ++ l2))%list.
  now rewrite !join_empty_cons, IH, string_app_assoc.
Qed.

Lemma join_cons_lines (sep x : string) (l : list string) :
  join sep (x :: l) = x ++ join "" (map (String.append sep) l).
Proof.
  revert x. induction l as [|y l IH]; intros x.
  - symmetry. apply append_empty.
  - change (join sep (x :: y :: l)) with (x ++ sep ++ join sep (y :: l)).
    rewrite IH. cbn [map]. rewrite join_empty_cons. now rewrite string_app_assoc.
Qed.

Lemma join_app (sep : string) (a b : list string) :
  a <> [] -> b <> [] -> join sep (a ++ b) = join sep a ++ sep ++ join sep b.
Proof.
  intros Ha Hb. destruct b as [|y b]; [now destruct Hb|]. clear Hb.
  induction a as [|x a IH]; [now destruct Ha|]. clear Ha.
  destruct a as [|x' a].
  - reflexivity.
  - change (join sep ((x :: x' :: a) ++ y :: b))
      with (x ++ sep ++ join sep ((x' :: a) ++ y :: b)).
    rewrite IH by discriminate.
    change (join sep (x :: x' :: a)) with (x ++ sep ++ join sep (x' :: a)).
    now rewrite !string_app_assoc.
Qed.

Lemma prefix_app_cancel (a x y : string) :
  String.prefix (a ++ x) (a ++ y) = String.prefix x y.
Proof.
  induction a as [|c a IH]; [reflexivity|]. simpl.
  destruct (ascii_dec c c) as [_|Hne]; [exact IH|now destruct Hne].
Qed.

Lemma prefix_app_same (a y : string) : String.prefix a (a ++ y) = true.
Proof.
  induction a as [|c a IH]; [now destruct y|]. simpl.
  destruct (ascii_dec c c) as [_|Hne]; [exact IH|now destruct Hne].
Qed.

Lemma last_line_from_feed (tail a e : string) :
  last_line_from tail (a ++ nl ++ e) = last_line e.
Proof.
  revert tail. induction a as [|c a IH]; intros tail; [reflexivity|].
  simpl. destruct (Ascii.eqb c line_feed); apply IH.
Qed.

Lemma last_line_from_plain (tail e : string) :
  has_char line_feed e = false -> last_line_from tail e = tail ++ e.
Proof.
  revert tail. induction e as [|c e IH]; intros tail He.
  - symmetry. apply append_empty.
  - unfold has_char in He. cbn [list_ascii_of_string existsb] in He.
    apply orb_false_iff in He. destruct He as [Hc He].
    cbn [last_line_from]. rewrite Ascii.eqb_sym, Hc.
    rewrite (IH _ He). now rewrite string_app_assoc.
Qed.

Lemma last_line_join (l : list string) (e : string) :
  l <> [] -> last_line (join nl (l ++ [e])) = last_line e.
Proof.
  intros Hl. rewrite join_app by (assumption || discriminate).
  apply last_line_from_feed.
Qed.

(** X12. What [status] answers, as a text.  It writes nothing and returns
    "On branch" with the current branch, then the section "No commits
    yet" when no commit is stored, the staged paths (each as "modified",
    whether or not it was committed before) when some are staged, the
    untracked files when there are some, and the closing section when
    nothing is staged and nothing is untracked.  The text starts with the
    branch line followed by "No commits yet" exactly when no commit is
    stored.  When no staged path and no untracked file has a line feed in
    its name, the last line of the text is "nothing to commit, working
    tree clean" exactly when nothing is staged and no file is untracked.
    (A file name that holds a line feed can put any line into the
    report.) *)
Theorem status_report (wt : WorkTree) (index : Index) :
  let untracked := get_untracked_files wt index in
  let text := fst (status wt (Some index)) in
  snd (status wt (Some index)) = Some index /\
  text =
    "On branch " ++ current_branch index ++
    (if truthy (commits index) then "" else nl ++ nl ++ "No commits yet" ++ nl) ++
    (if truthy (staged index) then
       nl ++ nl ++ "Changes to be committed:" ++
       nl ++ "  (use " ++ dq ++ "git reset HEAD <file>..." ++ dq ++ " to unstage)" ++ nl ++
       join "" (map (fun file => nl ++ "        modified:   " ++ file)
                  (keys (staged index)))
     else "") ++
    (if truthy untracked then
       nl ++ nl ++ "Untracked files:" ++
       nl ++ "  (use " ++ dq ++ "git add <file>..." ++ dq ++
       " to include in what will be committed)" ++ nl ++
       join "" (map (fun file => nl ++ "        " ++ file) untracked)
     else "") ++
    (if negb (truthy (staged index)) && negb (truthy untracked)
     then nl ++ nl ++ "nothing to commit, working tree clean" else "") /\
  (String.prefix
     ("On branch " ++ current_branch index ++ nl ++ nl ++ "No commits yet" ++ nl) text
   = true <-> commits index = []) /\
  ((forall file, In file (keys (staged index)) -> has_char line_feed file = false) ->
   (forall file, In file untracked -> has_char line_feed file = false) ->
   (last_line text = "nothing to commit, working tree clean" <->
    staged index = [] /\ untracked = [])).
Proof.
  intros untracked text.
  assert (Hlines : text = join nl (status_lines wt index)) by reflexivity.
  split; [reflexivity|].
  assert (Htext : text =
    "On branch " ++ current_branch index ++
    (if truthy (commits index) then "" else nl ++ nl ++ "No commits yet" ++ nl) ++
    (if truthy (staged index) then
       nl ++ nl ++ "Changes to be committed:" ++
       nl ++ "  (use " ++ dq ++ "git reset HEAD <file>..." ++ dq ++ " to unstage)" ++ nl ++
       join "" (map (fun file => nl ++ "        modified:   " ++ file)
                  (keys (staged index)))
     else "") ++
    (if truthy untracked then
       nl ++ nl ++ "Untracked files:" ++
       nl ++ "  (use " ++ dq ++ "git add <file>..." ++ dq ++
       " to include in what will be committed)" ++ nl ++
       join "" (map (fun file => nl ++ "        " ++ file) untracked)
     else "") ++
    (if negb (truthy (staged index)) && negb (truthy untracked)
     then nl ++ nl ++ "nothing to commit, working tree clean" else "")).
  { rewrite Hlines, status_lines_app. cbv zeta. fold untracked.
    cbn [List.app].
    rewrite join_cons_lines, !map_app, !join_empty_app, string_app_assoc.
    f_equal. f_equal.
    f_equal; [now destruct (truthy (commits index))|].
    f_equal; [|f_equal].
    - destruct (truthy (staged index)); [|reflexivity].
      cbn [map]. rewrite !join_empty_cons, map_map, !string_app_assoc. reflexivity.
    - destruct (truthy untracked); [|reflexivity].
      cbn [map]. rewrite !join_empty_cons, map_map, !string_app_assoc. reflexivity.
    - destruct (negb (truthy (staged index)) && negb (truthy untracked));
        reflexivity. }
  split; [exact Htext|]. split.
  - rewrite Htext.
    rewrite <- (string_app_assoc "On branch " (current_branch index)
                  (nl ++ nl ++ "No commits yet" ++ nl)).
    rewrite <- (string_app_assoc "On branch " (current_branch index)).
    rewrite prefix_app_cancel.
    destruct (commits index) as [|c cs]; cbn [truthy].
    + split; [reflexivity|intros _].
      rewrite <- !(string_app_assoc nl), <- (string_app_assoc _ nl).
      apply prefix_app_same.
    + split; [|discriminate]. intros H. exfalso. revert H.
      destruct (staged index) as [|e st]; cbn [truthy negb andb];
        [destruct untracked as [|u un]; cbn [truthy negb andb]|];
        vm_compute; discriminate.
  - intros Hst Hun. rewrite Hlines, status_lines_app. cbv zeta. fold untracked.
    destruct untracked as [|u un] eqn:Eu.
    + destruct (staged index) as [|[k v] st] eqn:Es; cbn [truthy negb andb].
      * split; [auto|intros _].
        rewrite !app_nil_l, app_assoc. now rewrite last_line_join.
      * split; [|intros [H _]; discriminate H]. intros H. exfalso.
        destruct (exists_last (l := keys ((k, v) :: st))) as (ks & f & Hf);
          [discriminate|].
        rewrite !app_nil_r, Hf, map_app, !app_comm_cons, !app_assoc in H.
        cbn [map] in H. rewrite last_line_join in H by discriminate.
        unfold last_line in H. rewrite last_line_from_plain in H.
        -- vm_compute in H. discriminate H.
        -- change (has_char line_feed ("        modified:   " ++ f))
             with (has_char line_feed f).
           apply Hst. rewrite Hf. apply in_or_app. right. now left.
    + rewrite andb_false_r. cbn [truthy].
      split; [|intros [_ H]; discriminate H]. intros H. exfalso.
      destruct (exists_last (l := u :: un)) as (un' & f & Hf); [discriminate|].
      rewrite !app_nil_r, Hf, map_app, !app_comm_cons, !app_assoc in H.
      cbn [map] in H. rewrite last_line_join in H by discriminate.
      unfold last_line in H. rewrite last_line_from_plain in H.
      * vm_compute in H. discriminate H.
      * change (has_char line_feed ("        " ++ f)) with (has_char line_feed f).
        apply Hun. rewrite Hf. apply in_or_app. right. now left.
Qed.

Lemma status_report_witness :
  let index := Scenario.document Scenario.s5 in
  let text := fst (status Scenario.wt (Some index)) in
  let bare := {| repo_root := "/home/u/proj"; walk := [("/home/u/proj", [])];
                 lookup := fun _ => None |} in
  ((forall file, In file (keys (staged index)) -> has_char line_feed file = false) /\
   (forall file, In file (get_untracked_files Scenario.wt index) ->
      has_char line_feed file = false) /\
   last_line text <> "nothing to commit, working tree clean" /\
   String.prefix ("On branch feature" ++ nl ++ nl ++ "No commits yet" ++ nl) text
     <> true) /\
  fst (status bare (Some initial_index)) =
    "On branch main" ++ nl ++ nl ++ "No commits yet" ++ nl ++ nl ++ nl ++
    "nothing to commit, working tree clean".
Proof.
  intros index text bare. split.
  - assert (H1 : forall file, In file (keys (staged index)) ->
                   has_char line_feed file = false)
      by (intros file Hin; vm_compute in Hin; destruct Hin as [<-|[]]; reflexivity).
    assert (H2 : forall file, In file (get_untracked_files Scenario.wt index) ->
                   has_char line_feed file = false)
      by (intros file Hin; vm_compute in Hin; destruct Hin as [<-|[]]; reflexivity).
    destruct (status_report Scenario.wt index) as (_ & _ & Hfirst & Hlast).
    split; [exact H1|]. split; [exact H2|]. split.
    + intros H. apply (Hlast H1 H2) in H. destruct H as [H _].
      vm_compute in H. discriminate H.
    + intros H. apply Hfirst in H. vm_compute in H. discriminate H.
  - destruct (status_report bare initial_index) as (_ & Htext & _).
    rewrite Htext. vm_compute. reflexivity.
Defined.

(** * The terminal window *)

Import Terminal.

(** ** Splitting a command line *)

Lemma split_from_word (w acc s : string) :
  forallb (fun c => negb (isspace c)) (list_ascii_of_string w) = true ->
  split_from acc (w ++ s) = split_from (acc ++ w) s.
Proof.
  revert acc. induction w as [|c w IH]; intros acc Hw; simpl.
  - replace (acc ++ "") with acc; [reflexivity|].
    induction acc; simpl; congruence.
  - simpl in Hw. apply andb_true_iff in Hw. destruct Hw as [Hc Hw].
    apply negb_true_iff in Hc. rewrite Hc, IH by exact Hw.
    f_equal. induction acc; simpl; congruence.
Qed.

Lemma word_not_space (w : string) :
  word w = true ->
  w <> "" /\ forallb (fun c => negb (isspace c)) (list_ascii_of_string w) = true.
Proof.
  unfold word. intros H. apply andb_true_iff in H. destruct H as [Hne Hall].
  split.
  - intros ->. discriminate.
  - apply forallb_forall. intros c Hc.
    apply (proj1 (forallb_forall _ _) Hall) in Hc.
    unfold plain in Hc. now apply andb_true_iff in Hc.
Qed.

Lemma split_from_end (w : string) : w <> "" -> split_from w "" = [w].
Proof. intros H. simpl. apply String.eqb_neq in H. now rewrite H. Qed.

Lemma split_from_space (w rest : string) :
  w <> "" -> split_from w (String " " rest) = w :: split_from "" rest.
Proof. intros H. simpl. apply String.eqb_neq in H. now rewrite H. Qed.

(** [split] undoes [" ".join] on words. *)
Lemma split_join (ws : list string) :
  Forall (fun w => word w = true) ws -> split (join " " ws) = ws.
Proof.
  unfold split, join. induction 1 as [|w ws Hw Hws IH]; [reflexivity|].
  destruct (word_not_space w Hw) as [Hne Hall].
  destruct ws as [|w' ws].
  - change (String.concat " " [w]) with w.
    rewrite <- (append_empty w) at 1.
    rewrite split_from_word by exact Hall.
    change ("" ++ w) with w. now apply split_from_end.
  - change (String.concat " " (w :: w' :: ws))
      with (w ++ String " " (String.concat " " (w' :: ws))).
    rewrite split_from_word by exact Hall.
    change ("" ++ w) with w.
    rewrite split_from_space by exact Hne. now rewrite IH.
Qed.

Lemma ascii_only_cons (c : ascii) (s : string) :
  ascii_only (String c s) = Nat.ltb (nat_of_ascii c) 128 && ascii_only s.
Proof. reflexivity. Qed.

Lemma word_snoc (acc : string) (c : ascii) :
  acc = "" \/ word acc = true -> plain c = true ->
  word (acc ++ String c "") = true.
Proof.
  intros Hacc Hc. unfold word. apply andb_true_iff. split.
  - destruct acc; reflexivity.
  - assert (Hall : forallb plain (list_ascii_of_string acc) = true).
    { destruct Hacc as [->|Hw]; [reflexivity|].
      unfold word in Hw. now apply andb_true_iff in Hw. }
    clear Hacc. induction acc as [|a acc IH]; simpl in *.
    + now rewrite Hc.
    + apply andb_true_iff in Hall. destruct Hall as [Ha Hall].
      now rewrite Ha, IH.
Qed.

Lemma split_from_words (s acc : string) :
  acc = "" \/ word acc = true ->
  ascii_only s = true ->
  Forall (fun w => word w = true) (split_from acc s).
Proof.
  revert acc. induction s as [|c s IH]; intros acc Hacc Hs; simpl.
  - destruct (String.eqb_spec acc ""); [constructor|].
    destruct Hacc as [->|Hw]; [contradiction|]. now repeat constructor.
  - rewrite ascii_only_cons in Hs. apply andb_true_iff in Hs.
    destruct Hs as [Hc Hs].
    destruct (isspace c) eqn:Esp.
    + destruct (String.eqb_spec acc ""); [now apply IH; auto|].
      destruct Hacc as [->|Hw]; [contradiction|].
      constructor; [exact Hw|]. apply IH; auto.
    + apply IH; [|exact Hs]. right. apply word_snoc; [exact Hacc|].
      unfold plain. now rewrite Esp, Hc.
Qed.

Lemma split_words (s : string) :
  ascii_only s = true -> Forall (fun w => word w = true) (split s).
Proof. intros Hs. apply split_from_words; auto. Qed.

(** ** The command history *)

Lemma list_getitem_in_range (A : Type) (l : list A) (i : Z) :
  (0 <= i < Z.of_nat (List.length l))%Z ->
  exists x, list_getitem l i = Some x /\ nth_error l (Z.to_nat i) = Some x.
Proof.
  intros Hi. unfold list_getitem.
  replace ((0 <=? i)%Z && (i <? Z.of_nat (List.length l))%Z) with true
    by (symmetry; apply andb_true_iff; split; [apply Z.leb_le|apply Z.ltb_lt]; lia).
  destruct (nth_error l (Z.to_nat i)) as [x|] eqn:E; [eauto|].
  apply nth_error_None in E. lia.
Qed.

Lemma list_getitem_last (A : Type) (l : list A) (x : A) :
  list_getitem (append l x) (Z.of_nat (List.length l)) = Some x.
Proof.
  destruct (list_getitem_in_range A (append l x) (Z.of_nat (List.length l)))
    as (y & Hget & Hnth).
  - unfold append. rewrite length_app. simpl. lia.
  - rewrite Hget. rewrite Nat2Z.id in Hnth. unfold append in Hnth.
    rewrite nth_error_app2 in Hnth by lia.
    rewrite Nat.sub_diag in Hnth. simpl in Hnth. congruence.
Qed.

(** What [execute_command] does to the history on a line that is not
    blank, whichever helper it then calls. *)
Lemma execute_history (w : Window) :
  strip (input_field w) <> "" ->
  let w1 := fst (execute_command w) in
  command_history w1 = append (command_history w) (strip (input_field w)) /\
  history_index w1 = Z.of_nat (List.length (command_history w1)) /\
  input_field w1 = "" /\
  cwd w1 = cwd w.
Proof.
  intros Hne. apply String.eqb_neq in Hne.
  unfold execute_command. rewrite Hne.
  repeat match goal with
         | |- context [if ?b then _ else _] => destruct b
         end; cbn; auto.
Qed.

(** X13. The cursor of the history starts in bounds and every handler
    keeps it there: in any window the terminal reaches, the Up and Down
    keys never index the history out of range, and they leave the history
    itself alone. *)
Theorem history_in_bounds (w : Window) :
  (forall cwd, in_bounds (initial_window cwd)) /\
  (in_bounds w ->
   in_bounds (fst (execute_command w)) /\
   (exists w', history_up w = Some w' /\ in_bounds w' /\
               command_history w' = command_history w) /\
   (exists w', history_down w = Some w' /\ in_bounds w' /\
               command_history w' = command_history w)).
Proof.
  split; [intros d; unfold in_bounds; simpl; lia|].
  unfold in_bounds. intros Hb. split; [|split].
  - destruct (String.eqb_spec (strip (input_field w)) "") as [He|Hne].
    + unfold execute_command. rewrite He. exact Hb.
    + destruct (execute_history w Hne) as (_ & Hi & _). cbv zeta in Hi.
      rewrite Hi. lia.
  - unfold history_up.
    destruct (truthy (command_history w) && (0 <? history_index w)%Z) eqn:E;
      [|eauto].
    apply andb_true_iff in E. destruct E as [_ E]. apply Z.ltb_lt in E.
    destruct (list_getitem_in_range _ (command_history w) (history_index w - 1))
      as (c & Hget & _); [lia|].
    rewrite Hget. eexists. split; [reflexivity|]. simpl. split; [lia|reflexivity].
  - unfold history_down.
    destruct (truthy (command_history w) &&
              (history_index w <? Z.of_nat (List.length (command_history w)) - 1)%Z)
      eqn:E.
    + apply andb_true_iff in E. destruct E as [_ E]. apply Z.ltb_lt in E.
      destruct (list_getitem_in_range _ (command_history w) (history_index w + 1))
        as (c & Hget & _); [lia|].
      rewrite Hget. eexists. split; [reflexivity|]. simpl. split; [lia|reflexivity].
    + destruct (history_index w =? Z.of_nat (List.length (command_history w)) - 1)%Z;
        eexists; (split; [reflexivity|]); simpl; split; auto; lia.
Qed.

Lemma history_in_bounds_witness :
  let w := {| cwd := "/home/u/proj"; command_history := ["git init"; "git status"];
              history_index := 2; input_field := "  git log "; output_area := [] |} in
  in_bounds w /\
  in_bounds (fst (execute_command w)) /\
  (exists w', history_up w = Some w' /\ in_bounds w' /\
              command_history w' = command_history w) /\
  (exists w', history_down w = Some w' /\ in_bounds w' /\
              command_history w' = command_history w).
Proof.
  intros w.
  assert (H : in_bounds w) by (unfold in_bounds; simpl; lia).
  exact (conj H (proj2 (history_in_bounds w) H)).
Defined.

(** X14. For an entry of ASCII characters, where [strip] is Python's: a
    blank line changes nothing (it is not echoed, not recorded and the
    entry field is not even cleared).  Any other line is recorded stripped
    of surrounding white space, with the cursor after it and the entry
    field emptied; Up then recalls exactly that line, and Down empties the
    field again and puts the cursor back. *)
Theorem execute_then_recall (w : Window) :
  ascii_only (input_field w) = true ->
  (strip (input_field w) = "" -> execute_command w = (w, Blank)) /\
  (strip (input_field w) <> "" ->
   let w1 := fst (execute_command w) in
   command_history w1 = append (command_history w) (strip (input_field w)) /\
   input_field w1 = "" /\
   exists w2,
     history_up w1 = Some w2 /\
     input_field w2 = strip (input_field w) /\
     exists w3,
       history_down w2 = Some w3 /\
       input_field w3 = "" /\
       history_index w3 = history_index w1 /\
       command_history w3 = command_history w1).
Proof.
  intros _. split.
  - intros He. unfold execute_command. now rewrite He.
  - intros Hne w1. destruct (execute_history w Hne) as (Hh & Hi & Hin & _).
    fold w1 in Hh, Hi, Hin. split; [exact Hh|]. split; [exact Hin|].
    assert (Hlen : List.length (command_history w1) = S (List.length (command_history w))).
    { rewrite Hh. unfold append. rewrite length_app. simpl. lia. }
    assert (Hget : list_getitem (command_history w1) (history_index w1 - 1)
                   = Some (strip (input_field w))).
    { rewrite Hi, Hlen, Hh.
      replace (Z.of_nat (S (List.length (command_history w))) - 1)%Z
        with (Z.of_nat (List.length (command_history w))) by lia.
      apply list_getitem_last. }
    assert (Htr : truthy (command_history w1) = true).
    { destruct (command_history w1); [discriminate Hlen|reflexivity]. }
    eexists. split.
    { unfold history_up. rewrite Htr, Hget.
      replace (0 <? history_index w1)%Z with true
        by (symmetry; apply Z.ltb_lt; lia). reflexivity. }
    split; [reflexivity|].
    eexists. split.
    { unfold history_down. cbn [command_history history_index with_history].
      rewrite Htr.
      replace (history_index w1 - 1 <? Z.of_nat (List.length (command_history w1)) - 1)%Z
        with false by (symmetry; apply Z.ltb_ge; lia).
      replace (history_index w1 - 1 =? Z.of_nat (List.length (command_history w1)) - 1)%Z
        with true by (symmetry; apply Z.eqb_eq; lia).
      reflexivity. }
    cbn [input_field history_index command_history with_history].
    split; [reflexivity|]. split; [now rewrite Hi|reflexivity].
Qed.

Lemma execute_then_recall_witness :
  let w := {| cwd := "/home/u/proj"; command_history := ["git init"];
              history_index := 1; input_field := "  git status  "; output_area := [] |} in
  let blank := {| cwd := "/home/u/proj"; command_history := ["git init"];
                  history_index := 1; input_field := "   "; output_area := [] |} in
  (ascii_only (input_field w) = true /\
   strip (input_field w) <> "" /\
   let w1 := fst (execute_command w) in
   command_history w1 = ["git init"; "git status"] /\
   exists w2, history_up w1 = Some w2 /\ input_field w2 = "git status") /\
  (ascii_only (input_field blank) = true /\
   strip (input_field blank) = "" /\
   execute_command blank = (blank, Blank)).
Proof.
  intros w blank. split.
  - assert (H0 : ascii_only (input_field w) = true) by (vm_compute; reflexivity).
    assert (H : strip (input_field w) <> "") by (vm_compute; discriminate).
    split; [exact H0|]. split; [exact H|].
    destruct (proj2 (execute_then_recall w H0) H) as (Hh & _ & w2 & Hup & Hin & _).
    split; [rewrite Hh; vm_compute; reflexivity|].
    exists w2. split; [exact Hup|]. rewrite Hin. vm_compute. reflexivity.
  - assert (H0 : ascii_only (input_field blank) = true) by (vm_compute; reflexivity).
    assert (H : strip (input_field blank) = "") by (vm_compute; reflexivity).
    exact (conj H0 (conj H (proj1 (execute_then_recall blank H0) H))).
Defined.

(** ** Dispatching a command line *)

Lemma list_index_app (x : string) (pre rest : list string) :
  ~ In x pre -> list_index x (pre ++ x :: rest) = Some (List.length pre).
Proof.
  induction pre as [|y pre IH]; intros Hnot; simpl.
  - now rewrite String.eqb_refl.
  - destruct (String.eqb_spec y x) as [->|Hne].
    + exfalso. apply Hnot. now left.
    + rewrite IH; [reflexivity|]. intros Hin. apply Hnot. now right.
Qed.

Lemma list_index_bound (x : string) (l : list string) (i : nat) :
  list_index x l = Some i -> i < List.length l.
Proof.
  revert i. induction l as [|y l IH]; intros i; simpl; [discriminate|].
  destruct (y =? x); [intros H; inversion H; lia|].
  destruct (list_index x l) as [j|]; [|discriminate].
  intros H; inversion H; subst. specialize (IH j eq_refl). lia.
Qed.

Lemma Forall_skipn (A : Type) (P : A -> Prop) (n : nat) (l : list A) :
  Forall P l -> Forall P (skipn n l).
Proof.
  revert l. induction n as [|n IH]; intros l H; [exact H|].
  destruct l; [constructor|]. simpl. apply IH. now inversion H.
Qed.

(** X15. A commit typed as the help text shows it reaches [commit] with the
    message as typed: for [git commit], any words before [-m], then [-m]
    and the words of the message, one space between words, the message
    passed is those words joined by one space. *)
Theorem commit_message_round_trip (pre ws : list string) :
  Forall (fun w => word w = true) pre ->
  ~ In "-m" pre ->
  Forall (fun w => word w = true) ws ->
  ws <> [] ->
  process_git_command (join " " ("git" :: "commit" :: pre ++ "-m" :: ws)) =
    CallCommit (join " " ws).
Proof.
  intros Hpre Hnot Hws Hne.
  unfold process_git_command. rewrite split_join.
  - cbv zeta. cbv iota.
    change (negb ("git" =? "git")) with false. cbv iota.
    change ("commit" =? "init") with false.
    change ("commit" =? "status") with false.
    change ("commit" =? "add") with false.
    change ("commit" =? "commit") with true. cbv iota.
    rewrite list_index_app by exact Hnot.
    replace (Nat.ltb (List.length pre + 1) (List.length (pre ++ "-m" :: ws))) with true.
    + replace (List.length pre + 1) with (List.length (pre ++ ["-m"]))
        by (rewrite length_app; reflexivity).
      replace (pre ++ "-m" :: ws)%list with ((pre ++ ["-m"]) ++ ws)%list
        by (rewrite <- app_assoc; reflexivity).
      now rewrite skipn_app, skipn_all, Nat.sub_diag.
    + symmetry. apply Nat.ltb_lt. rewrite length_app. simpl.
      destruct ws; [contradiction|]. simpl. lia.
  - repeat constructor; auto.
    apply Forall_app. split; [exact Hpre|]. now constructor.
Qed.

Lemma commit_message_round_trip_witness :
  Forall (fun w => word w = true) ["-a"] /\
  ~ In "-m" ["-a"] /\
  Forall (fun w => word w = true) ["Initial"; "commit"] /\
  ["Initial"; "commit"] <> [] /\
  process_git_command "git commit -a -m Initial commit" = CallCommit "Initial commit".
Proof.
  assert (H1 : Forall (fun w => word w = true) ["-a"]) by (repeat constructor).
  assert (H2 : ~ In "-m" ["-a"]) by (intros [H|[]]; discriminate H).
  assert (H3 : Forall (fun w => word w = true) ["Initial"; "commit"])
    by (repeat constructor).
  assert (H4 : ["Initial"; "commit"] <> []) by discriminate.
  exact (conj H1 (conj H2 (conj H3 (conj H4
           (commit_message_round_trip ["-a"] ["Initial"; "commit"] H1 H2 H3 H4))))).
Defined.

(** X16. Whatever is typed, on a line of ASCII characters, a message that
    reaches [commit] is one or more words joined by single spaces: it is
    never empty and holds no tab, no line break, no double space and no
    space at either end (quotes typed around it are part of it). *)
Theorem commit_message_words (command m : string) :
  ascii_only command = true ->
  process_git_command command = CallCommit m ->
  exists ws,
    ws <> [] /\ Forall (fun w => word w = true) ws /\
    m = join " " ws /\ split m = ws.
Proof.
  intros Hascii. pose proof (split_words command Hascii) as Hwords.
  unfold process_git_command.
  destruct (split command) as [|first [|cmd args]]; try discriminate.
  - destruct (negb (first =? "git")); discriminate.
  - destruct (negb (first =? "git")); [discriminate|].
    repeat match goal with
           | |- context [if (cmd =? ?s) then _ else _] =>
               destruct (cmd =? s) eqn:?
           end;
      try discriminate; try (destruct args as [|? [|? ?]]; discriminate).
    destruct (list_index "-m" args) as [idx|] eqn:Eidx; [|discriminate].
    destruct (Nat.ltb (idx + 1) (List.length args)) eqn:Elt; [|discriminate].
    intros H. inversion H; subst m. clear H.
    assert (Hargs : Forall (fun w => word w = true) (skipn (idx + 1) args)).
    { apply Forall_skipn. inversion Hwords as [|? ? _ Hrest]; subst.
      now inversion Hrest. }
    exists (skipn (idx + 1) args). split; [|split; [exact Hargs|split]].
    + apply Nat.ltb_lt in Elt. intros Hnil.
      apply (f_equal (@List.length string)) in Hnil.
      rewrite length_skipn in Hnil. simpl in Hnil. lia.
    + reflexivity.
    + now apply split_join.
Qed.

Lemma commit_message_words_witness :
  let command :=
    "git commit -m " ++ dq ++ "Initial   commit" ++ dq in
  ascii_only command = true /\
  process_git_command command = CallCommit (dq ++ "Initial commit" ++ dq) /\
  exists ws,
    ws <> [] /\ Forall (fun w => word w = true) ws /\
    dq ++ "Initial commit" ++ dq = join " " ws /\
    split (dq ++ "Initial commit" ++ dq) = ws.
Proof.
  intros command.
  assert (H1 : ascii_only command = true) by (vm_compute; reflexivity).
  assert (H2 : process_git_command command = CallCommit (dq ++ "Initial commit" ++ dq))
    by (vm_compute; reflexivity).
  exact (conj H1 (conj H2 (commit_message_words command _ H1 H2))).
Defined.

(** * Finding and creating the repository *)

Import Repository.

Lemma drop_while_length (f : ascii -> bool) (l : list ascii) :
  List.length (drop_while f l) <= List.length l.
Proof. induction l as [|c l IH]; simpl; [lia|]. destruct (f c); simpl; lia. Qed.

Lemma drop_while_same (f : ascii -> bool) (l : list ascii) :
  List.length (drop_while f l) = List.length l -> drop_while f l = l.
Proof.
  destruct l as [|c l]; simpl; [reflexivity|].
  destruct (f c); [|reflexivity].
  pose proof (drop_while_length f l). lia.
Qed.

Lemma drop_while_head (f : ascii -> bool) (l : list ascii) :
  match drop_while f l with [] => True | c :: _ => f c = false end.
Proof.
  induction l as [|c l IH]; simpl; [exact I|].
  destruct (f c) eqn:E; [exact IH|exact E].
Qed.

(** [dirname] shortens a path unless it leaves it as it is. *)
Lemma dirname_chars_shorter (p : list ascii) :
  dirname_chars p <> p -> List.length (dirname_chars p) < List.length p.
Proof.
  unfold dirname_chars.
  set (head := rev (drop_while (fun c => negb (is_slash c)) (rev p))).
  assert (Hlen : List.length head <= List.length p).
  { unfold head. rewrite length_rev.
    etransitivity; [apply drop_while_length|]. now rewrite length_rev. }
  assert (Hsame : List.length head = List.length p -> head = p).
  { unfold head. rewrite length_rev. intros H.
    rewrite drop_while_same; [apply rev_involutive|]. now rewrite length_rev. }
  destruct (negb (Nat.eqb (List.length head) 0) && negb (forallb is_slash head)) eqn:E.
  - intros _. apply andb_true_iff in E. destruct E as [Hne _].
    apply negb_true_iff, Nat.eqb_neq in Hne.
    rewrite length_rev.
    assert (Hlast : exists t, rev head = "/"%char :: t).
    { assert (Hrev : rev head = drop_while (fun c => negb (is_slash c)) (rev p))
        by (unfold head; apply rev_involutive).
      pose proof (drop_while_head (fun c => negb (is_slash c)) (rev p)) as Hh.
      rewrite <- Hrev in Hh.
      destruct (rev head) as [|c t] eqn:Ed.
      - exfalso. apply Hne. now rewrite <- length_rev, Ed.
      - apply negb_false_iff in Hh. apply Ascii.eqb_eq in Hh. subst c. eauto. }
    destruct Hlast as [t Ht]. rewrite Ht. simpl.
    pose proof (drop_while_length is_slash t).
    assert (List.length head = S (List.length t))
      by (rewrite <- (length_rev head), Ht; reflexivity).
    lia.
  - intros Hne.
    destruct (Nat.eq_dec (List.length head) (List.length p)) as [Heq|Hneq]; [|lia].
    exfalso. apply Hne. now apply Hsame.
Qed.

Lemma length_string_of_list_ascii (l : list ascii) :
  String.length (string_of_list_ascii l) = List.length l.
Proof. induction l; simpl; congruence. Qed.

Lemma length_list_ascii_of_string (s : string) :
  List.length (list_ascii_of_string s) = String.length s.
Proof. induction s; simpl; congruence. Qed.

Lemma dirname_shorter (p : string) :
  dirname p <> p -> String.length (dirname p) < String.length p.
Proof.
  unfold dirname. intros Hne.
  rewrite length_string_of_list_ascii, <- length_list_ascii_of_string.
  apply dirname_chars_shorter. intros Heq. apply Hne.
  rewrite Heq. apply string_of_list_ascii_of_string.
Qed.

(** With fuel beyond the length of the path the loop of [get_git_dir]
    ends, and more fuel gives the same answer. *)
Lemma get_git_dir_from_ends (exists_ : string -> bool) (fuel : nat) (current : string) :
  String.length current < fuel ->
  exists r, get_git_dir_from fuel exists_ current = Some r /\
            forall fuel', fuel <= fuel' ->
              get_git_dir_from fuel' exists_ current = Some r.
Proof.
  revert current. induction fuel as [|fuel IH]; intros current Hlen; [lia|].
  simpl. destruct (String.eqb_spec current (dirname current)) as [Heq|Hne].
  - exists None. split; [reflexivity|]. intros [|fuel'] Hle; [lia|].
    simpl. rewrite <- Heq. now rewrite String.eqb_refl.
  - destruct (exists_ (path_join current ".git")) eqn:E.
    + eexists. split; [reflexivity|]. intros [|fuel'] Hle; [lia|].
      simpl. apply String.eqb_neq in Hne. now rewrite Hne, E.
    + assert (Hshort : String.length (dirname current) < fuel).
      { assert (Hne' : dirname current <> current) by congruence.
        pose proof (dirname_shorter current Hne'). lia. }
      destruct (IH (dirname current) Hshort) as (r & Hr & Hmore).
      exists r. split; [exact Hr|]. intros [|fuel'] Hle; [lia|].
      simpl. apply String.eqb_neq in Hne. rewrite Hne, E. apply Hmore. lia.
Qed.

Lemma get_git_dir_from_nearest (exists_ : string -> bool) (fuel : nat)
    (current : string) (r : option string) :
  get_git_dir_from fuel exists_ current = Some r ->
  exists k,
    (forall j, j < k ->
       Nat.iter j dirname current <> dirname (Nat.iter j dirname current) /\
       exists_ (path_join (Nat.iter j dirname current) ".git") = false) /\
    match r with
    | Some git_dir =>
        git_dir = path_join (Nat.iter k dirname current) ".git" /\
        exists_ git_dir = true /\
        Nat.iter k dirname current <> dirname (Nat.iter k dirname current)
    | None => Nat.iter k dirname current = dirname (Nat.iter k dirname current)
    end.
Proof.
  revert current. induction fuel as [|fuel IH]; intros current; simpl; [discriminate|].
  destruct (String.eqb_spec current (dirname current)) as [Heq|Hne].
  - intros H; inversion H; subst r. exists 0. split; [intros j Hj; lia|exact Heq].
  - destruct (exists_ (path_join current ".git")) eqn:E.
    + intros H; inversion H; subst r. exists 0.
      split; [intros j Hj; lia|]. simpl. auto.
    + intros H. destruct (IH _ H) as (k & Hbefore & Hat).
      exists (S k). split.
      * intros [|j] Hj; [simpl; auto|].
        rewrite Nat.iter_succ_r. apply Hbefore. lia.
      * rewrite Nat.iter_succ_r. exact Hat.
Qed.

(** X17. [get_git_dir] always returns: its loop ends within as many turns
    as the working directory has characters.  What it returns is the
    [.git] of the nearest directory that has one, going from the working
    directory up through its parents, a directory that is its own parent
    (the root) excluded; it returns [None] when it gets there without
    finding any. *)
Theorem get_git_dir_nearest (exists_ : string -> bool) (cwd : string) :
  exists r k,
    get_git_dir exists_ cwd = Some r /\
    (forall j, j < k ->
       Nat.iter j dirname cwd <> dirname (Nat.iter j dirname cwd) /\
       exists_ (path_join (Nat.iter j dirname cwd) ".git") = false) /\
    match r with
    | Some git_dir =>
        git_dir = path_join (Nat.iter k dirname cwd) ".git" /\
        exists_ git_dir = true /\
        Nat.iter k dirname cwd <> dirname (Nat.iter k dirname cwd)
    | None => Nat.iter k dirname cwd = dirname (Nat.iter k dirname cwd)
    end.
Proof.
  unfold get_git_dir.
  destruct (get_git_dir_from_ends exists_ (S (String.length cwd)) cwd) as (r & Hr & _);
    [lia|].
  destruct (get_git_dir_from_nearest exists_ _ cwd r Hr) as (k & Hbefore & Hat).
  exists r, k. auto.
Qed.

Lemma get_git_dir_here (exists_ : string -> bool) (cwd : string) :
  cwd <> dirname cwd ->
  exists_ (path_join cwd ".git") = true ->
  get_git_dir exists_ cwd = Some (Some (path_join cwd ".git")).
Proof.
  intros Hne E. unfold get_git_dir. simpl.
  apply String.eqb_neq in Hne. now rewrite Hne, E.
Qed.

Lemma get_git_dir_root (exists_ : string -> bool) (cwd : string) :
  cwd = dirname cwd -> get_git_dir exists_ cwd = Some None.
Proof.
  intros Heq. unfold get_git_dir. simpl. rewrite <- Heq.
  now rewrite String.eqb_refl.
Qed.

(** X18. In a directory that is its own parent, as the root ["/"] is, no
    repository is ever found: [init] there reports success and creates
    [/.git], yet every command still answers "fatal: not a git
    repository". *)
Theorem no_repository_at_root (disk : Disk) (cwd : string) (c : command) :
  cwd = dirname cwd ->
  on_disk disk (path_join cwd ".git") = false ->
  fst (init cwd disk) = "Repositório Git inicializado em " ++ cwd /\
  snd (init cwd disk) (path_join cwd ".git") = Some initial_index /\
  store_at (snd (init cwd disk)) cwd = None /\
  run c (store_at (snd (init cwd disk)) cwd) = ("fatal: not a git repository", None).
Proof.
  intros Hroot Hno. unfold init. rewrite Hno. cbn [fst snd].
  split; [reflexivity|]. split.
  - unfold write_index. now rewrite String.eqb_refl.
  - assert (Hs : store_at (write_index disk (path_join cwd ".git") initial_index) cwd
                 = None)
      by (unfold store_at; now rewrite get_git_dir_root).
    rewrite Hs. split; [reflexivity|]. destruct c; reflexivity.
Qed.

Lemma no_repository_at_root_witness :
  let disk : Disk := fun _ => None in
  "/" = dirname "/" /\
  on_disk disk (path_join "/" ".git") = false /\
  snd (init "/" disk) "/.git" = Some initial_index /\
  run RunLog (store_at (snd (init "/" disk)) "/") = ("fatal: not a git repository", None).
Proof.
  intros disk.
  assert (H1 : "/" = dirname "/") by (vm_compute; reflexivity).
  assert (H2 : on_disk disk (path_join "/" ".git") = false) by reflexivity.
  destruct (no_repository_at_root disk "/" RunLog H1 H2) as (_ & Hw & _ & Hrun).
  exact (conj H1 (conj H2 (conj Hw Hrun))).
Defined.

(** X19. In any other directory, one that has no [.git] yet: [init]
    reports success and creates the repository there, and from then on
    [load_index] in that directory reads the fresh document of [init],
    whatever repositories the directories above it hold. *)
Theorem init_creates_repository (disk : Disk) (cwd : string) :
  cwd <> dirname cwd ->
  on_disk disk (path_join cwd ".git") = false ->
  init cwd disk =
    ("Repositório Git inicializado em " ++ cwd,
     write_index disk (path_join cwd ".git") initial_index) /\
  get_git_dir (on_disk (snd (init cwd disk))) cwd = Some (Some (path_join cwd ".git")) /\
  store_at (snd (init cwd disk)) cwd = Some initial_index.
Proof.
  intros Hne Hno.
  assert (Hrun : init cwd disk =
            ("Repositório Git inicializado em " ++ cwd,
             write_index disk (path_join cwd ".git") initial_index))
    by (unfold init; now rewrite Hno).
  assert (Hfound : get_git_dir (on_disk (snd (init cwd disk))) cwd
                   = Some (Some (path_join cwd ".git"))).
  { rewrite Hrun. cbn [snd]. apply get_git_dir_here; [exact Hne|].
    unfold on_disk, write_index. now rewrite String.eqb_refl. }
  split; [exact Hrun|]. split; [exact Hfound|].
  unfold store_at. rewrite Hfound, Hrun. cbn [snd].
  unfold write_index. now rewrite String.eqb_refl.
Qed.

Lemma init_creates_repository_witness :
  let disk : Disk :=
    fun p => if p =? "/home/u/.git" then Some (Scenario.document Scenario.s2) else None in
  "/home/u/proj" <> dirname "/home/u/proj" /\
  on_disk disk (path_join "/home/u/proj" ".git") = false /\
  store_at disk "/home/u/proj" = Some (Scenario.document Scenario.s2) /\
  store_at (snd (init "/home/u/proj" disk)) "/home/u/proj" = Some initial_index.
Proof.
  intros disk.
  assert (H1 : "/home/u/proj" <> dirname "/home/u/proj") by (vm_compute; discriminate).
  assert (H2 : on_disk disk (path_join "/home/u/proj" ".git") = false)
    by (vm_compute; reflexivity).
  split; [exact H1|]. split; [exact H2|]. split; [vm_compute; reflexivity|].
  exact (proj2 (proj2 (init_creates_repository disk "/home/u/proj" H1 H2))).
Defined.

(** X20. [init] never overwrites: where a repository exists it answers
    that it is already initialised and changes nothing, so a second [init]
    in a row is always of that kind; and whatever it does, every other
    repository on disk is left as it was. *)
Theorem init_keeps_repositories (disk : Disk) (cwd : string) :
  (on_disk disk (path_join cwd ".git") = true ->
   init cwd disk = ("Repositório Git já inicializado.", disk)) /\
  init cwd (snd (init cwd disk)) =
    ("Repositório Git já inicializado.", snd (init cwd disk)) /\
  (forall git_dir, git_dir <> path_join cwd ".git" ->
     snd (init cwd disk) git_dir = disk git_dir).
Proof.
  split; [|split].
  - intros H. unfold init. now rewrite H.
  - unfold init. destruct (on_disk disk (path_join cwd ".git")) eqn:E; cbn [snd].
    + now rewrite E.
    + unfold on_disk, write_index at 1. now rewrite String.eqb_refl.
  - intros git_dir Hne. unfold init.
    destruct (on_disk disk (path_join cwd ".git")); cbn [snd]; [reflexivity|].
    unfold write_index. apply String.eqb_neq in Hne. now rewrite Hne.
Qed.

Lemma init_keeps_repositories_witness :
  let disk : Disk :=
    fun p => if p =? "/home/u/.git" then Some (Scenario.document Scenario.s2) else None in
  on_disk disk (path_join "/home/u" ".git") = true /\
  init "/home/u" disk = ("Repositório Git já inicializado.", disk) /\
  "/home/u/.git" <> path_join "/home/u/proj" ".git" /\
  snd (init "/home/u/proj" disk) "/home/u/.git" = Some (Scenario.document Scenario.s2).
Proof.
  intros disk.
  assert (H1 : on_disk disk (path_join "/home/u" ".git") = true) by reflexivity.
  assert (H2 : "/home/u/.git" <> path_join "/home/u/proj" ".git")
    by (vm_compute; discriminate).
  split; [exact H1|].
  split; [exact (proj1 (init_keeps_repositories disk "/home/u") H1)|].
  split; [exact H2|].
  rewrite (proj2 (proj2 (init_keeps_repositories disk "/home/u/proj")) _ H2).
  reflexivity.
Defined.

(** * The emulator object *)

Import Objects.

Lemma getattr_set_cwd (self : dict attribute) (cwd name : string) :
  name <> "cwd" -> getattr (set_cwd self cwd) name = getattr self name.
Proof.
  intros Hne. unfold getattr, set_cwd. now rewrite get_setitem_other.
Qed.

Lemma getattr_after_cd (self : dict attribute) (cwds : list string) (name : string) :
  name <> "cwd" -> getattr (fold_left set_cwd cwds self) name = getattr self name.
Proof.
  intros Hne. revert self. induction cwds as [|d cwds IH]; intros self; simpl.
  - reflexivity.
  - rewrite IH. now apply getattr_set_cwd.
Qed.

(** X21. [git config] can never work.  [__init__] stores the configuration
    dictionary on the instance under the name [config], which hides the
    method [config] of the class: for an emulator object as the terminal
    builds it, whatever directories were entered since, calling [config]
    raises [TypeError] ("'dict' object is not callable") before any method
    runs, while the eight other names [process_git_command] calls reach
    the method of that name, and the dictionary [commit] reads stays the
    one loaded at start. *)
Theorem config_is_shadowed (cwd : string) (config_file : option (dict string))
    (cwds : list string) :
  let self := fold_left set_cwd cwds (new_emulator cwd config_file) in
  call_attribute self "config" = inl "'dict' object is not callable" /\
  getattr self "config" = Some (ADict (load_config config_file)) /\
  Forall (fun name => call_attribute self name = inr name)
    ["init"; "status"; "add"; "commit"; "log"; "branch"; "checkout"; "clone"].
Proof.
  intros self.
  assert (Hget : forall name, name <> "cwd" ->
            getattr self name = getattr (new_emulator cwd config_file) name)
    by (intros name Hne; now apply getattr_after_cd).
  split; [|split].
  - unfold call_attribute. rewrite Hget by discriminate. reflexivity.
  - rewrite Hget by discriminate. reflexivity.
  - repeat constructor; unfold call_attribute; rewrite Hget by discriminate;
      reflexivity.
Qed.

(** ** Directories named like the repository data *)

Lemma prefix_trans (a b c : string) :
  String.prefix a b = true -> String.prefix b c = true -> String.prefix a c = true.
Proof.
  revert b c. induction a as [|x a IH]; intros b c Hab Hbc; [now destruct c|].
  destruct b as [|y b]; [discriminate|]. destruct c as [|z c]; [discriminate|].
  simpl in *. destruct (ascii_dec x y) as [->|]; [|discriminate].
  destruct (ascii_dec y z) as [->|]; [|discriminate]. eauto.
Qed.

Lemma substr_prefix (needle a b : string) :
  substr needle a = true -> String.prefix a b = true -> substr needle b = true.
Proof.
  revert b. induction a as [|x a IH]; intros b Ha Hab.
  - destruct needle as [|n needle]; [now destruct b|].
    simpl in Ha. discriminate Ha.
  - destruct b as [|y b]; [discriminate|].
    assert (Hxy : x = y /\ String.prefix a b = true).
    { simpl in Hab. destruct (ascii_dec x y); [auto|discriminate]. }
    destruct Hxy as [<- Hab'].
    cbn [substr] in *.
    destruct (String.prefix needle (String x a)) eqn:E.
    + now rewrite (prefix_trans _ _ _ E Hab).
    + destruct (String.prefix needle (String x b)); [reflexivity|]. now apply IH.
Qed.

(** X22. When the path of the repository root itself contains [.git] (a
    project kept in [/home/u/site.github.io], say), the walk skips every
    directory: no file is ever untracked, [status] lists none and
    [add(".")] answers "Added 0 files" and stages nothing. *)
Theorem nothing_untracked_below_git_named_root (wt : WorkTree) (index : Index) :
  substr ".git" (repo_root wt) = true ->
  (forall root names, In (root, names) (walk wt) ->
     String.prefix (repo_root wt) root = true) ->
  get_untracked_files wt index = [] /\
  add wt "." (Some index) = ("Added 0 files", Some index).
Proof.
  intros Hroot Hwalk.
  assert (Hnone : get_untracked_files wt index = []).
  { rewrite get_untracked_files_filter. unfold walked_paths.
    replace (flat_map _ (walk wt)) with (@nil string); [reflexivity|].
    symmetry. induction (walk wt) as [|[root names] w IH]; [reflexivity|].
    simpl. rewrite (substr_prefix _ _ _ Hroot (Hwalk root names (or_introl eq_refl))).
    apply IH. intros r n Hin. apply (Hwalk r n). now right. }
  split; [exact Hnone|].
  unfold add, try_except, add_body, bind, load_index. simpl.
  rewrite Hnone. simpl. now destruct index.
Qed.

Lemma nothing_untracked_below_git_named_root_witness :
  let wt := {| repo_root := "/home/u/site.github.io";
               walk := [ ("/home/u/site.github.io", ["index.html"]);
                         ("/home/u/site.github.io/css", ["main.css"]) ];
               lookup := fun _ => Some (File []) |} in
  substr ".git" (repo_root wt) = true /\
  (forall root names, In (root, names) (walk wt) ->
     String.prefix (repo_root wt) root = true) /\
  get_untracked_files wt initial_index = [] /\
  add wt "." (Some initial_index) = ("Added 0 files", Some initial_index).
Proof.
  intros wt.
  assert (H1 : substr ".git" (repo_root wt) = true) by (vm_compute; reflexivity).
  assert (H2 : forall root names, In (root, names) (walk wt) ->
                 String.prefix (repo_root wt) root = true).
  { intros root names [H|[H|[]]]; inversion H; vm_compute; reflexivity. }
  exact (conj H1 (conj H2
           (nothing_untracked_below_git_named_root wt initial_index H1 H2))).
Defined.

(** * Commands in sequence *)

(** X23. After a commit, [log] writes nothing and answers with the four
    lines of the new commit first.  When commits were stored before, a
    line feed and exactly the text [log] answered before follow; after the
    first commit nothing follows: the answer of before, "No commits yet",
    is gone. *)
Theorem log_after_commit (config : dict string) (now1 now2 : datetime)
    (message : string) (index : Index) :
  staged index <> [] ->
  exists out index' c,
    commit config now1 now2 message (Some index) = (out, Some index') /\
    last_commit index' = Some c /\
    GitEmulator.message c = message /\
    snd (log (Some index')) = Some index' /\
    fst (log (Some index')) =
      join nl (commit_lines c) ++
      (if truthy (commits index) then nl ++ fst (log (Some index)) else "") /\
    (commits index = [] -> fst (log (Some index)) = "No commits yet").
Proof.
  intros Hst. eexists _, _, (new_commit config now1 now2 index message).
  split; [apply (commit_run _ _ _ _ _ Hst)|].
  split; [now apply last_commit_append with (cs := commits index)|].
  split; [reflexivity|]. split; [apply log_store|]. split.
  - unfold log, try_except, log_body, bind, load_index. cbn [commits].
    replace (truthy (append (commits index) (new_commit config now1 now2 index message)))
      with true by (unfold append; now destruct (commits index)).
    cbn [negb fst ret].
    rewrite log_lines_flat_map. cbn [commits]. unfold append at 1.
    rewrite rev_app_distr. cbn [rev List.app flat_map].
    fold (commit_lines (new_commit config now1 now2 index message)).
    rewrite <- log_lines_flat_map.
    destruct (commits index) as [|c0 cs] eqn:Ec; cbn [truthy negb fst].
    + unfold log_lines. rewrite Ec. cbn [rev fold_left].
      rewrite app_nil_r. symmetry. apply append_empty.
    + apply join_app; [discriminate|].
      rewrite log_lines_flat_map, Ec. cbn [rev].
      intros H. apply (f_equal (@List.length string)) in H.
      rewrite flat_map_app, length_app in H. cbn in H. lia.
  - intros Hc. unfold log, try_except, log_body, bind, load_index.
    now rewrite Hc.
Qed.

Lemma log_after_commit_witness :
  let first := Scenario.document Scenario.s1 in
  let later := Scenario.document Scenario.s8 in
  (staged first <> [] /\
   commits first = [] /\
   fst (log (Some first)) = "No commits yet" /\
   exists out index' c,
     commit Scenario.config (Scenario.clock 1 7) (Scenario.clock 1 9) "first"
       (Some first) = (out, Some index') /\
     GitEmulator.message c = "first" /\
     fst (log (Some index')) = join nl (commit_lines c)) /\
  (staged later <> [] /\
   List.length (commits later) = 2 /\
   exists out index' c,
     commit Scenario.config (Scenario.clock 3 7) (Scenario.clock 3 9) "third"
       (Some later) = (out, Some index') /\
     GitEmulator.message c = "third" /\
     fst (log (Some index')) = join nl (commit_lines c) ++ nl ++ fst (log (Some later))).
Proof.
  intros first later. split.
  - assert (H1 : staged first <> []) by (vm_compute; discriminate).
    assert (H2 : commits first = []) by (vm_compute; reflexivity).
    destruct (log_after_commit Scenario.config (Scenario.clock 1 7) (Scenario.clock 1 9)
                "first" first H1) as (out & index' & c & Hrun & _ & Hm & _ & Hl & Hno).
    split; [exact H1|]. split; [exact H2|]. split; [exact (Hno H2)|].
    exists out, index', c. split; [exact Hrun|]. split; [exact Hm|].
    rewrite Hl, H2. apply append_empty.
  - assert (H1 : staged later <> []) by (vm_compute; discriminate).
    assert (H2 : List.length (commits later) = 2) by (vm_compute; reflexivity).
    destruct (log_after_commit Scenario.config (Scenario.clock 3 7) (Scenario.clock 3 9)
                "third" later H1) as (out & index' & c & Hrun & _ & Hm & _ & Hl & _).
    split; [exact H1|]. split; [exact H2|].
    exists out, index', c. split; [exact Hrun|]. split; [exact Hm|].
    rewrite Hl. destruct (commits later); [discriminate H2|reflexivity].
Defined.

(** X24. A file that is added and then committed is recorded in the commit
    under the SHA-256 digest of the content it had when it was added:
    [commit] does not read the working tree, so an edit made between the
    two is not in the commit. *)
Theorem commit_records_digest_at_add (wt : WorkTree) (path : string)
    (content : list byte) (config : dict string) (now1 now2 : datetime)
    (message : string) (index : Index) :
  path <> "." ->
  lookup wt (path_join (repo_root wt) path) = Some (File content) ->
  exists added out committed c,
    add wt path (Some index) = ("Added '" ++ path ++ "' to stage", Some added) /\
    commit config now1 now2 message (Some added) = (out, Some committed) /\
    last_commit committed = Some c /\
    get (files c) path = Some (SHA256.hexdigest content) /\
    (forall other, other <> path -> get (files c) other = get (staged index) other) /\
    staged committed = [].
Proof.
  intros Hdot E.
  set (added := with_staged index
                  (setitem (staged index) path (SHA256.hexdigest content))).
  assert (Hst : staged added <> []).
  { intros Hnil. pose proof (get_setitem_same (staged index) path
                               (SHA256.hexdigest content)) as Hget.
    unfold added, with_staged in Hnil. cbn [staged] in Hnil.
    rewrite Hnil in Hget. discriminate. }
  eexists added, _, _, (new_commit config now1 now2 added message).
  split; [apply (add_file_run wt path content index Hdot E)|].
  split; [apply (commit_run _ _ _ _ _ Hst)|].
  split; [now apply last_commit_append with (cs := commits added)|].
  cbn [files new_commit staged added with_staged].
  split; [apply get_setitem_same|]. split; [|reflexivity].
  intros other Hne. now apply get_setitem_other.
Qed.

Lemma commit_records_digest_at_add_witness :
  let index := Scenario.document Scenario.s7 in
  "a.txt" <> "." /\
  lookup Scenario.wt_edited (path_join (repo_root Scenario.wt_edited) "a.txt")
    = Some (File (encode "x, edited")) /\
  exists added out committed c,
    add Scenario.wt_edited "a.txt" (Some index) = ("Added 'a.txt' to stage", Some added) /\
    commit Scenario.config (Scenario.clock 4 7) (Scenario.clock 4 9) "edit"
      (Some added) = (out, Some committed) /\
    last_commit committed = Some c /\
    get (files c) "a.txt" = Some (SHA256.hexdigest (encode "x, edited")).
Proof.
  intros index.
  assert (H1 : "a.txt" <> ".") by discriminate.
  assert (H2 : lookup Scenario.wt_edited (path_join (repo_root Scenario.wt_edited) "a.txt")
               = Some (File (encode "x, edited"))) by (vm_compute; reflexivity).
  split; [exact H1|]. split; [exact H2|].
  destruct (commit_records_digest_at_add Scenario.wt_edited "a.txt" _ Scenario.config
              (Scenario.clock 4 7) (Scenario.clock 4 9) "edit" index H1 H2)
    as (added & out & committed & c & Hadd & Hcommit & Hlast & Hget & _).
  exists added, out, committed, c. auto.
Defined.
